(** * A shallow embedding of tsickle's annotator and module rewriter

    This development embeds the parts of [src/tsickle.ts] that decide how
    JSDoc comments are parsed, how enums, interfaces and ambient
    declarations are rewritten by the [Annotator], and how the
    [PostProcessor] turns CommonJS [require] calls into [goog.require]
    calls.  JavaScript strings are [String.string] (one 8-bit code unit per
    character), emitted text is a list of emitted chunks, and JavaScript
    objects used as maps are association lists of their own properties. *)

From Stdlib Require Import Bool List Arith Lia ZArith Sorting.Permutation.
From Stdlib Require Import Strings.String Strings.Ascii Numbers.DecimalString.
Import ListNotations.
Set Warnings "-register-all".

Open Scope string_scope.
Open Scope list_scope.

(** ** Strings *)

Definition chr (n : nat) : string := String (ascii_of_nat n) EmptyString.

(** newline, double quote *)
Definition nl : string := chr 10.
Definition dq : string := chr 34.

(** Concatenation of emitted pieces; [join] is [Array.prototype.join]. *)
Definition cat (l : list string) : string := String.concat EmptyString l.
Definition join (sep : string) (l : list string) : string := String.concat sep l.

Definition string_of_nat (n : nat) : string :=
  NilZero.string_of_uint (Nat.to_uint n).

Definition string_of_Z (z : Z) : string :=
  NilZero.string_of_int (Z.to_int z).

(** JavaScript truthiness of a string. *)
Definition truthy (s : string) : bool :=
  match s with EmptyString => false | _ => true end.

Definition str_in (x : string) (l : list string) : bool :=
  existsb (String.eqb x) l.


(** ** JavaScript objects used as maps

    [{}] used as a map, as the list of its own properties in creation
    order; assigning an existing key keeps its position.

    - [o[k] = v] with [k] = [__proto__] goes to the accessor inherited
      from [Object.prototype] and creates no own property: with a
      primitive value it does nothing, with an object value it replaces
      the prototype, which no own-property test or [Object.keys] sees.
    - [Object.keys(o)] lists the keys that are array indices (the
      canonical decimal form of an integer below 2^32 - 1) first, in
      ascending numeric order, then the other keys in creation order.
    - [o.hasOwnProperty(k)] is [has o k]; it throws a [TypeError] when [o]
      has an own property named [hasOwnProperty] (whose value is not a
      function), which [has] does not model: the properties that go
      through such a call assume that key absent. *)
Module JsObj.

(** The value of a string of decimal digits. *)
Fixpoint digits_value (acc : N) (l : list ascii) : option N :=
  match l with
  | [] => Some acc
  | c :: l' =>
      let d := N.of_nat (nat_of_ascii c) in
      if (48 <=? d)%N && (d <=? 57)%N then digits_value (acc * 10 + (d - 48))%N l' else None
  end.

(** [k] as an array index, if it is one. *)
Definition array_index (k : string) : option N :=
  match list_ascii_of_string k with
  | [] => None
  | c :: rest =>
      if Nat.eqb (nat_of_ascii c) 48 && negb (Nat.eqb (List.length rest) 0) then None
      else match digits_value 0 (c :: rest) with
           | Some n => if (n <? 4294967295)%N then Some n else None
           | None => None
           end
  end.


Fixpoint insert_index (x : N * string) (l : list (N * string)) : list (N * string) :=
  match l with
  | [] => [x]
  | y :: l' => if (fst x <? fst y)%N then x :: l else y :: insert_index x l'
  end.

(** The order of [Object.keys] on own keys given in creation order. *)
Definition index_first (ks : list string) : list string :=
  map snd (fold_right insert_index []
             (flat_map (fun k => match array_index k with Some n => [(n, k)] | None => [] end) ks))
  ++ filter (fun k => match array_index k with Some _ => false | None => true end) ks.

Section JsObj.
Context {V : Type}.

Definition t := list (string * V).

Definition empty : t := [].

(** [o.hasOwnProperty(k)] *)
Fixpoint has (o : t) (k : string) : bool :=
  match o with
  | [] => false
  | (k', _) :: o' => String.eqb k k' || has o' k
  end.

(** [o[k]] for an own key [k] *)
Fixpoint get (o : t) (k : string) : option V :=
  match o with
  | [] => None
  | (k', v) :: o' => if String.eqb k k' then Some v else get o' k
  end.

(** Update of an own property, or a new one at the end. *)
Fixpoint put (o : t) (k : string) (v : V) : t :=
  match o with
  | [] => [(k, v)]
  | (k', v') :: o' =>
      if String.eqb k k' then (k', v) :: o' else (k', v') :: put o' k v
  end.

(** [o[k] = v] *)
Definition set (o : t) (k : string) (v : V) : t :=
  if String.eqb k "__proto__" then o else put o k v.

(** The own keys in creation order. *)
Definition own_keys (o : t) : list string := map fst o.

(** [Object.keys(o)] *)
Definition keys (o : t) : list string := index_first (own_keys o).

End JsObj.
End JsObj.

(** ** Facts about JavaScript objects and strings *)
Module JsObjFacts.

Section Facts.
Context {V : Type}.
Implicit Types o : JsObj.t (V:=V).



Lemma has_get o k : JsObj.has o k = match JsObj.get o k with Some _ => true | None => false end.
Proof.
  induction o as [|[k' v'] o IH]; simpl; [reflexivity|].
  destruct (String.eqb k k'); simpl; auto.
Qed.

Lemma has_put o k v k' : JsObj.has (JsObj.put o k v) k' = JsObj.has o k' || String.eqb k' k.
Proof.
  induction o as [|[k1 v1] o IH]; simpl; [now rewrite orb_false_r|].
  destruct (String.eqb k k1) eqn:E; simpl.
  - apply String.eqb_eq in E; subst.
    destruct (String.eqb k' k1); simpl; [reflexivity | now rewrite orb_false_r].
  - rewrite IH, orb_assoc; reflexivity.
Qed.

Lemma has_set o k v k' :
  JsObj.has (JsObj.set o k v) k'
  = JsObj.has o k' || (String.eqb k' k && negb (String.eqb k "__proto__")).
Proof.
  unfold JsObj.set; destruct (String.eqb k "__proto__"); simpl.
  - now rewrite andb_false_r, orb_false_r.
  - now rewrite has_put, andb_true_r.
Qed.



Lemma put_existing o k v : JsObj.get o k = Some v -> JsObj.put o k v = o.
Proof.
  induction o as [|[k1 v1] o IH]; simpl; [discriminate|].
  destruct (String.eqb k k1) eqn:E; intros H.
  - injection H as ->; apply String.eqb_eq in E; subst; reflexivity.
  - rewrite IH; auto.
Qed.

Lemma set_existing o k v : JsObj.get o k = Some v -> JsObj.set o k v = o.
Proof.
  intros H; unfold JsObj.set; destruct (String.eqb k "__proto__"); [reflexivity|].
  apply put_existing, H.
Qed.



Lemma get_put_same o k v : JsObj.get (JsObj.put o k v) k = Some v.
Proof.
  induction o as [|[k' v'] o IH]; simpl; [now rewrite String.eqb_refl|].
  destruct (String.eqb k k') eqn:E; simpl; rewrite E; auto.
Qed.

Lemma get_set_same o k v : k <> "__proto__" -> JsObj.get (JsObj.set o k v) k = Some v.
Proof.
  intros Hp; unfold JsObj.set; apply String.eqb_neq in Hp; rewrite Hp; apply get_put_same.
Qed.

Lemma get_put_other o k v k' : k' <> k -> JsObj.get (JsObj.put o k v) k' = JsObj.get o k'.
Proof.
  intros Hne; induction o as [|[k'' v''] o IH]; simpl.
  - apply String.eqb_neq in Hne; rewrite Hne; reflexivity.
  - destruct (String.eqb k k'') eqn:E; simpl.
    + apply String.eqb_eq in E; subst.
      apply String.eqb_neq in Hne; rewrite Hne; reflexivity.
    + rewrite IH; reflexivity.
Qed.

Lemma get_set_other o k v k' : k' <> k -> JsObj.get (JsObj.set o k v) k' = JsObj.get o k'.
Proof.
  intros Hne; unfold JsObj.set; destruct (String.eqb k "__proto__"); [reflexivity|].
  apply get_put_other, Hne.
Qed.

Lemma has_set_proto o k v :
  JsObj.has (JsObj.set o k v) "__proto__" = JsObj.has o "__proto__".
Proof.
  rewrite has_set; destruct (String.eqb "__proto__" k) eqn:E; [|now rewrite orb_false_r].
  apply String.eqb_eq in E; subst; simpl; now rewrite orb_false_r.
Qed.


End Facts.







Lemma str_app_assoc (a b c : string) : ((a ++ b) ++ c)%string = (a ++ (b ++ c))%string.
Proof. induction a as [|x a IH]; simpl; [reflexivity | now rewrite IH]. Qed.

Lemma str_length_app (a b : string) : String.length (a ++ b) = String.length a + String.length b.
Proof. induction a as [|x a IH]; simpl; [reflexivity | now rewrite IH]. Qed.

Lemma substring_all (s : string) : substring 0 (String.length s) s = s.
Proof. induction s as [|x s IH]; simpl; [reflexivity | now rewrite IH]. Qed.

End JsObjFacts.

(** ** JSDoc parsing: [getJSDocAnnotation] *)
Module JSDoc.

Definition code (c : ascii) : nat := nat_of_ascii c.

(** [\s] of JavaScript regular expressions (and the set [trim] removes),
    restricted to 8-bit code units. *)
Definition is_ws (c : ascii) : bool :=
  match code c with
  | 9 | 10 | 11 | 12 | 13 | 32 | 160 => true
  | _ => false
  end.

(** line terminators: the positions after them match [^] in [m] mode,
    and [.] does not match them *)
Definition is_lt (c : ascii) : bool :=
  match code c with 10 | 13 => true | _ => false end.

Definition is_char (n : nat) (c : ascii) : bool := Nat.eqb (code c) n.

Fixpoint take_while (p : ascii -> bool) (l : list ascii) : list ascii :=
  match l with
  | [] => []
  | c :: l' => if p c then c :: take_while p l' else []
  end.

Fixpoint drop_while (p : ascii -> bool) (l : list ascii) : list ascii :=
  match l with
  | [] => []
  | c :: l' => if p c then drop_while p l' else l
  end.

(** [String.prototype.trim] *)
Definition trim (l : list ascii) : list ascii :=
  rev (drop_while is_ws (rev (drop_while is_ws l))).

(** [comment.match(/^\/\*\*([\s\S]*?)\*\/$/)], returning the group. *)
Definition jsdoc_body (l : list ascii) : option (list ascii) :=
  match l with
  | a :: b :: c :: rest =>
      if is_char 47 a && is_char 42 b && is_char 42 c then
        match rev rest with
        | d :: e :: rb => if is_char 47 d && is_char 42 e then Some (rev rb) else None
        | _ => None
        end
      else None
  | _ => None
  end.

(** One attempt of [/^\s*\* /] at a position: [\s*] is greedy and cannot
    give back a [*], so it matches iff the longest run of white space is
    followed by ["* "]. *)
Definition star_space (l : list ascii) : option (list ascii) :=
  match drop_while is_ws l with
  | a :: b :: rest => if is_char 42 a && is_char 32 b then Some rest else None
  | _ => None
  end.

(** [comment.replace(/^\s*\* /gm, '')]: [bol] says whether [^] matches at
    the current position (start of input, or after a line terminator). *)
Fixpoint strip_go (fuel : nat) (bol : bool) (l : list ascii) : list ascii :=
  match fuel with
  | O => l
  | S f =>
      match l with
      | [] => []
      | c :: l' =>
          match (if bol then star_space l else None) with
          | Some rest => strip_go f false rest
          | None => c :: strip_go f (is_lt c) l'
          end
      end
  end.

Definition strip (l : list ascii) : list ascii := strip_go (List.length l) true l.

(** [comment.split('\n')] *)
Fixpoint split_nl (l : list ascii) : list (list ascii) :=
  match l with
  | [] => [[]]
  | c :: l' =>
      if is_char 10 c then [] :: split_nl l'
      else match split_nl l' with
           | [] => [[c]]
           | x :: xs => (c :: x) :: xs
           end
  end.

(** [line.match(/^@(\S+) *(.STAR)/)], where [.STAR] is any run of
    characters other than line terminators: tag name and text. *)
Definition tag_match (line : list ascii) : option (list ascii * list ascii) :=
  match line with
  | c :: rest =>
      if is_char 64 c then
        match take_while (fun x => negb (is_ws x)) rest with
        | [] => None
        | tag =>
            let after := drop_while (is_char 32) (drop_while (fun x => negb (is_ws x)) rest) in
            Some (tag, take_while (fun x => negb (is_lt x)) after)
        end
      else None
  | [] => None
  end.

(** [text.match(/^(\S+) ?(.STAR)/)]: parameter name and the rest. *)
Definition param_match (text : list ascii) : option (list ascii * list ascii) :=
  match take_while (fun x => negb (is_ws x)) text with
  | [] => None
  | name =>
      let after := drop_while (fun x => negb (is_ws x)) text in
      let after := match after with
                   | c :: a => if is_char 32 c then a else after
                   | [] => []
                   end in
      Some (name, take_while (fun x => negb (is_lt x)) after)
  end.

(** [JSDocTag]; absent optional fields are [None] / [false]. *)
Record tag := mkTag {
  tagName : option string;
  parameterName : option string;
  ttype : option string;
  optional : bool;
  restParam : bool;
  destructuring : bool;
  text : option string
}.

Definition plain_tag (n : option string) (p : option string) (t : option string) : tag :=
  mkTag n p None false false false t.

(** [s += x] on a possibly undefined string property *)
Definition js_append (s : option string) (x : string) : string :=
  match s with
  | Some s => s ++ x
  | None => "undefined" ++ x
  end%string.

Inductive result :=
| RNull                      (* not a JSDoc comment: [null] *)
| RTags (tags : list tag)    (* [{tags}] *)
| RFault (msg : string).     (* a thrown [Error] *)

Definition msg_type : string := "@type annotations are not allowed".
Definition msg_braces : string := "type annotations (using {...}) are not allowed".

Definition first_is (n : nat) (l : list ascii) : bool :=
  match l with c :: _ => is_char n c | [] => false end.

(** The [for (let line of lines)] loop; [acc] holds [tags] reversed. *)
Fixpoint parse_lines (acc : list tag) (lines : list (list ascii)) : result :=
  match lines with
  | [] => RTags (rev acc)
  | line :: rest =>
      match tag_match line with
      | Some (tn, tx) =>
          let tagName := string_of_list_ascii tn in
          if String.eqb tagName "type" then RFault msg_type
          else if (String.eqb tagName "param" || String.eqb tagName "return")
                  && first_is 123 tx then RFault msg_braces
          else
            let '(pn, tx) :=
              if String.eqb tagName "param" then
                match param_match tx with
                | Some (p, t) => (Some (string_of_list_ascii p), t)
                | None => (None, tx)
                end
              else (None, tx) in
            let text := string_of_list_ascii tx in
            parse_lines
              (plain_tag (Some tagName) pn (if truthy text then Some text else None) :: acc)
              rest
      | None =>
          let tl := string_of_list_ascii (trim line) in
          match acc with
          | [] => parse_lines [plain_tag None None (Some tl)] rest
          | t :: ts =>
              parse_lines
                (plain_tag (tagName t) (parameterName t) (Some (js_append (text t) (" " ++ tl)%string)) :: ts)
                rest
          end
      end
  end.

Definition lines_of (body : list ascii) : list (list ascii) :=
  split_nl (strip (trim body)).

Definition getJSDocAnnotation (comment : string) : result :=
  match jsdoc_body (list_ascii_of_string comment) with
  | None => RNull
  | Some body => parse_lines [] (lines_of body)
  end.

End JSDoc.
(** ** The [Rewriter] output state and the [Annotator] monad *)

(** [this.output] is a reference to one of two arrays: the main output
    array of the [Rewriter], or [this.externsOutput]. *)
Inductive buf := MainBuf | ExternsBuf.

(** A [ts.Diagnostic] recorded by [Rewriter.error]: start and message. *)
Record diag := mkDiag { d_start : nat; d_msg : string }.

Record st := mkSt {
  main : list string;                 (* the Rewriter's output array *)
  externs : list string;              (* [externsOutput] *)
  sink : buf;                         (* [this.output] *)
  emitted : JsObj.t (V:=bool);        (* [emittedNamespaces] *)
  diags : list diag                   (* [this.diagnostics] *)
}.

Definition M (A : Type) : Type := st -> A * st.

Definition ret {A} (a : A) : M A := fun s => (a, s).
Definition bind {A B} (m : M A) (f : A -> M B) : M B :=
  fun s => let (a, s') := m s in f a s'.

Declare Scope m_scope.
Notation "x <- m ;; k" := (bind m (fun x => k))
  (at level 61, m at next level, right associativity) : m_scope.
Notation "m ;; k" := (bind m (fun _ => k))
  (at level 61, right associativity) : m_scope.
Open Scope m_scope.

Fixpoint iterM {A} (f : A -> M unit) (l : list A) : M unit :=
  match l with
  | [] => ret tt
  | x :: l' => f x ;; iterM f l'
  end.

Definition when (b : bool) (m : M unit) : M unit := if b then m else ret tt.

(** Modelled from the spec: [Rewriter.emit] (the base rewriter is not in
    the sources) appends synthesized text to the current sink
    [this.output]; [writeRange] over a node's full range appends that
    source text. *)
Definition emit (x : string) : M unit :=
  fun s =>
    (tt, match sink s with
         | MainBuf => mkSt (main s ++ [x]) (externs s) (sink s) (emitted s) (diags s)
         | ExternsBuf => mkSt (main s) (externs s ++ [x]) (sink s) (emitted s) (diags s)
         end).

(** Modelled from the spec: [Rewriter.error] records a diagnostic tagged
    with a source position and does not interrupt processing. *)
Definition error (start : nat) (msg : string) : M unit :=
  fun s => (tt, mkSt (main s) (externs s) (sink s) (emitted s) (diags s ++ [mkDiag start msg])).

Definition get_sink : M buf := fun s => (sink s, s).
Definition set_sink (b : buf) : M unit :=
  fun s => (tt, mkSt (main s) (externs s) b (emitted s) (diags s)).

Definition get_emitted : M (JsObj.t (V:=bool)) := fun s => (emitted s, s).
(** [this.emittedNamespaces[k] = true] *)
Definition mark_emitted (k : string) : M unit :=
  fun s => (tt, mkSt (main s) (externs s) (sink s) (JsObj.set (emitted s) k true) (diags s)).

(** [closureExternsBlacklist] *)
Definition closureExternsBlacklist : list string :=
  ["exports"; "global"; "module"; "WorkerGlobalScope"; "Symbol"].

(** [unescapeName] *)
Definition unescapeName (name : string) : string :=
  if String.prefix "___" name then substring 1 (String.length name - 1) name else name.

Module Annotator.
Section Annotator.

(** The type checker's types and [TypeTranslator.translate(type, destructuring)]
    (an external collaborator). *)
Variable ty : Type.
Variable translate : ty -> bool -> string.
(** JavaScript numbers as returned by [getConstantValue], [+ 1] on them,
    and [toString]. *)
Variable num : Type.
Variable num_zero : num.
Variable num_add1 : num -> num.
Variable num_str : num -> string.
(** Enum member initializer expressions, and what [this.visit] of such an
    expression does. *)
Variable expr : Type.
Variable visit_expr : expr -> M unit.
(** [Rewriter.escapeForComment] *)
Variable escapeForComment : string -> string.
(** [options.untyped] *)
Variable untyped : bool.

(** What every [ts.Node] carries that the annotator reads: its flags, its
    full text (leading trivia included) and full start, the ranges and
    texts of its leading comments ([ts.getLeadingCommentRanges] of the full
    text), and the checker's type at that location. *)
Record hdr := mkHdr {
  h_ambient : bool;
  h_const : bool;
  h_export : bool;
  h_text : string;
  h_start : nat;
  h_begin : nat;
  h_comments : list (nat * string);
  h_type : ty
}.

(** A parameter's name: an identifier or a binding pattern (its source text). *)
Inductive binding :=
| BIdent (x : string)
| BArray (src : string)
| BObject (src : string).

Definition binding_text (b : binding) : string :=
  match b with BIdent x => x | BArray t => t | BObject t => t end.

(** A [ts.ParameterDeclaration] together with its signature symbol: the
    symbol's name, the checker's type, and for a rest parameter the type
    argument of its array type. *)
Record param := mkParam {
  p_name : binding;
  p_sym : string;
  p_init : bool;
  p_question : bool;
  p_rest : bool;
  p_type : ty;
  p_elem : ty
}.

(** A [ts.SignatureDeclaration] and the return type of its signature. *)
Record fn := mkFn {
  f_hdr : hdr;
  f_ctor : bool;
  f_params : list param;
  f_ret : ty
}.

(** A member name: identifier, string literal (its value and its source
    text), or anything else (its source text). *)
Inductive mname :=
| NIdent (x : string)
| NString (value : string) (src : string)
| NOther (src : string).

Definition mname_text (n : mname) : string :=
  match n with NIdent x => x | NString _ src => src | NOther src => src end.

Inductive member :=
| MProperty (h : hdr) (is_decl : bool) (n : mname)
| MMethod (is_decl : bool) (n : mname) (f : fn)
| MConstructor (f : fn)
| MOther (h : hdr) (kind : string) (n : option mname).

Definition member_hdr (m : member) : hdr :=
  match m with
  | MProperty h _ _ => h
  | MMethod _ _ f => f_hdr f
  | MConstructor f => f_hdr f
  | MOther h _ _ => h
  end.

Definition member_name (m : member) : option mname :=
  match m with
  | MProperty _ _ n => Some n
  | MMethod _ n _ => Some n
  | MConstructor _ => None
  | MOther _ _ n => n
  end.

Record enum_member := mkEnumMember {
  em_name : string;          (* [member.name.getText()] *)
  em_init : option expr;     (* [member.initializer] *)
  em_const : option num      (* [getConstantValue(member)] *)
}.

Record vdecl := mkVdecl { v_hdr : hdr; v_name : binding }.

Inductive modname := MIdent (x : string) | MString (value : string).

Inductive node :=
| ModuleDeclaration (h : hdr) (name : modname) (body : node)
| ModuleBlock (h : hdr) (stmts : list node)
| ClassDeclaration (h : hdr) (name : string) (members : list member)
| InterfaceDeclaration (h : hdr) (name : string) (tparams heritage : bool) (members : list member)
| FunctionDeclaration (h : hdr) (name : string) (f : fn)
| VariableStatement (h : hdr) (decls : list vdecl)
| EnumDeclaration (h : hdr) (name : string) (members : list enum_member)
| OtherNode (h : hdr) (kind : string).

Definition node_hdr (n : node) : hdr :=
  match n with
  | ModuleDeclaration h _ _ | ModuleBlock h _ | ClassDeclaration h _ _
  | InterfaceDeclaration h _ _ _ _ | FunctionDeclaration h _ _
  | VariableStatement h _ | EnumDeclaration h _ _ | OtherNode h _ => h
  end.

(** The cases of [maybeProcess]'s switch that are not embedded here
    (ExportDeclaration, VariableDeclaration, ClassDeclaration, ...). *)
Variable process_other : node -> M bool.

(** [typeToClosure(context, type, destructuring)] *)
Definition typeToClosure (t : ty) (destructuring : bool) : string :=
  if untyped then "?" else translate t destructuring.

(** [getJSDoc]: only the last leading comment is parsed; a thrown error is
    recorded at the comment's position and [null] is returned. *)
Definition getJSDoc (h : hdr) : M (option (list JSDoc.tag)) :=
  let comments := h_comments h in
  match comments with
  | [] => ret None
  | _ =>
      match nth_error comments (List.length comments - 1) with
      | None => ret None
      | Some (pos, comment) =>
          match JSDoc.getJSDocAnnotation comment with
          | JSDoc.RNull => ret None
          | JSDoc.RTags tags => ret (Some tags)
          | JSDoc.RFault msg => error (h_start h + pos) msg ;; ret None
          end
      end
  end.

(** [(this.getJSDoc(node) || {tags: []}).tags] *)
Definition tags_of (j : option (list JSDoc.tag)) : list JSDoc.tag :=
  match j with Some t => t | None => [] end.

Definition is_tag (n : string) (t : JSDoc.tag) : bool :=
  match JSDoc.tagName t with Some n' => String.eqb n' n | None => false end.

(** The first [@param] tag naming [name], as in the search loop. *)
Fixpoint find_param_text (tags : list JSDoc.tag) (name : string) : option string :=
  match tags with
  | [] => None
  | t :: ts =>
      if is_tag "param" t
         && match JSDoc.parameterName t with Some p => String.eqb p name | None => false end
      then JSDoc.text t else find_param_text ts name
  end.

Fixpoint find_return_text (tags : list JSDoc.tag) : option string :=
  match tags with
  | [] => None
  | t :: ts => if is_tag "return" t then JSDoc.text t else find_return_text ts
  end.

(** The [@param] tag built for one parameter. *)
Definition param_tag (jtags : list JSDoc.tag) (p : param) : JSDoc.tag :=
  let destructuring := match p_name p with BIdent _ => false | _ => true end in
  let t := if p_rest p then p_elem p else p_type p in
  let name := unescapeName (p_sym p) in
  JSDoc.mkTag (Some "param") (Some name) (Some (typeToClosure t destructuring))
    (p_init p || p_question p) (p_rest p) false (find_param_text jtags name).

Definition opt_truthy (o : option string) : option string :=
  match o with Some x => if truthy x then Some x else None | None => None end.

(** Emission of one tag line of the block. *)
Definition emit_tag (t : JSDoc.tag) : M unit :=
  emit " * " ;;
  match opt_truthy (JSDoc.tagName t) with Some n => emit ("@" ++ n)%string | None => ret tt end ;;
  match opt_truthy (JSDoc.ttype t) with
  | Some ty =>
      emit " {" ;; when (JSDoc.restParam t) (emit "...") ;; emit ty ;;
      when (JSDoc.optional t) (emit "=") ;; emit "}"
  | None => ret tt
  end ;;
  match opt_truthy (JSDoc.parameterName t) with Some n => emit (" " ++ n)%string | None => ret tt end ;;
  match opt_truthy (JSDoc.text t) with Some x => emit (" " ++ x)%string | None => ret tt end ;;
  emit nl.

(** [emitFunctionType(fnDecl, extraTags)] *)
Definition emitFunctionType (f : fn) (extraTags : list JSDoc.tag) : M unit :=
  jsDoc <- getJSDoc (f_hdr f) ;;
  let jtags := tags_of jsDoc in
  let copied := filter (fun t => negb (is_tag "param" t || is_tag "return" t)) jtags in
  let ptags := map (param_tag jtags) (f_params f) in
  let rtag := if f_ctor f then []
              else [JSDoc.mkTag (Some "return") None (Some (typeToClosure (f_ret f) false))
                      false false false (find_return_text jtags)] in
  emit (cat [nl; "/**"; nl]) ;;
  iterM emit_tag (extraTags ++ copied ++ ptags ++ rtag) ;;
  emit (cat [" */"; nl]).

(** [emitJSDocType(node, additionalDocTag)] *)
Definition emitJSDocType (h : hdr) (additionalDocTag : option string) : M unit :=
  emit " /**" ;;
  match additionalDocTag with Some d => emit (" " ++ d)%string | None => ret tt end ;;
  emit (cat [" @type {"; typeToClosure (h_type h) false; "} */"]).

(** [propertyName(prop)] *)
Definition propertyName (m : member) : option string :=
  match member_name m with
  | Some (NIdent x) => Some x
  | Some (NString v _) => Some v
  | _ => None
  end.

(** [existingAnnotation] in [visitProperty] *)
Definition existing_annotation (tags : list JSDoc.tag) : string :=
  cat (map (fun t => match JSDoc.tagName t with
                     | Some n => if truthy n then cat ["@"; n; nl]
                                 else cat [JSDoc.js_append (JSDoc.text t) EmptyString; nl]
                     | None => cat [JSDoc.js_append (JSDoc.text t) EmptyString; nl]
                     end) tags).

(** [visitProperty(namespace, p)] *)
Definition visitProperty (namespace : list string) (p : member) : M unit :=
  match opt_truthy (propertyName p) with
  | None =>
      emit (cat ["/* TODO: handle strange member:"; nl;
                 escapeForComment (h_text (member_hdr p)); nl; "*/"; nl])
  | Some name =>
      jsDoc <- getJSDoc (member_hdr p) ;;
      let existing := existing_annotation (tags_of jsDoc) in
      emit " /**" ;;
      when (truthy existing) (emit (" " ++ existing)%string) ;;
      emit (cat [" @type {"; typeToClosure (h_type (member_hdr p)) false; "} */"; nl]) ;;
      emit (cat [join "." (namespace ++ [name]); ";"; nl])
  end.

(** [emitInterface(iface)] *)
Definition emitInterface (name : string) (tparams heritage : bool) (members : list member) : M unit :=
  if untyped then ret tt else
  emit (cat [nl; "/** @record */"; nl]) ;;
  emit (cat ["function "; name; "() {}"; nl]) ;;
  when tparams (emit (cat ["// TODO: type parameters."; nl])) ;;
  when heritage (emit (cat ["// TODO: derived interfaces."; nl])) ;;
  iterM (visitProperty [name; "prototype"]) members.

(** [writeExternsFunction(name, params, namespace)] *)
Definition writeExternsFunction (name params : string) (namespace : list string) : M unit :=
  match namespace with
  | [] => emit (cat ["function "; name; "("; params; ") {}"; nl])
  | _ => emit (cat [join "." (namespace ++ [name]); " = function("; params; ") {};"; nl])
  end.

Definition params_text (ps : list param) : string :=
  join ", " (map (fun p => binding_text (p_name p)) ps).

Definition member_kind (m : member) : string :=
  match m with
  | MProperty _ true _ => "PropertyDeclaration"
  | MProperty _ false _ => "PropertySignature"
  | MMethod true _ _ => "MethodDeclaration"
  | MMethod false _ _ => "MethodSignature"
  | MConstructor _ => "Constructor"
  | MOther _ k _ => k
  end.

Definition ctor_of (m : member) : option fn :=
  match m with MConstructor f => Some f | _ => None end.

(** One member in the loop of [writeExternsType]. *)
Definition writeExternsMember (typeName : string) (namespace : list string) (m : member) : M unit :=
  match m with
  | MProperty h _ n =>
      emitJSDocType h None ;;
      emit (cat [nl; typeName; ".prototype."; mname_text n; ";"; nl])
  | MMethod _ n f =>
      emitFunctionType f [] ;;
      emit (cat [typeName; ".prototype."; mname_text n; " = function(";
                 params_text (f_params f); ") {};"; nl])
  | MConstructor _ => ret tt
  | MOther h k n =>
      let name := match n with Some n => namespace ++ [mname_text n] | None => namespace end in
      emit (cat [nl; "/* TODO: "; k; " in "; join "." name; " */"; nl])
  end.

(** [writeExternsType(decl, namespace)]; [is_class] distinguishes a
    ClassDeclaration from an InterfaceDeclaration. *)
Definition writeExternsType (is_class : bool) (name : string) (members : list member)
    (namespace : list string) : M unit :=
  let typeName := join "." (namespace ++ [name]) in
  mark_emitted typeName ;;
  if str_in typeName closureExternsBlacklist then ret tt else
  mark_emitted typeName ;;
  paramNames <-
    (if is_class then
       match flat_map (fun m => match ctor_of m with Some f => [f] | None => [] end) members with
       | [] => emit (cat ["/** @constructor @struct */"; nl]) ;; ret EmptyString
       | ctor :: rest =>
           match rest with
           | c2 :: _ => error (h_begin (f_hdr c2)) "multiple constructor signatures in declarations"
           | [] => ret tt
           end ;;
           emitFunctionType ctor [JSDoc.plain_tag (Some "constructor") None None;
                                  JSDoc.plain_tag (Some "struct") None None] ;;
           ret (params_text (f_params ctor))
       end
     else emit (cat ["/** @record @struct */"; nl]) ;; ret EmptyString) ;;
  writeExternsFunction name paramNames namespace ;;
  iterM (writeExternsMember typeName namespace) members.

(** [Rewriter.errorUnimplementedKind(node, where)] *)
Definition errorUnimplementedKind (start : nat) (kind where_ : string) : M unit :=
  error start (cat [kind; " not implemented in "; where_]).

(** [writeExternsVariable(decl, namespace)] *)
Definition writeExternsVariable (namespace : list string) (d : vdecl) : M unit :=
  match v_name d with
  | BIdent x =>
      let qualifiedName := join "." (namespace ++ [x]) in
      if str_in qualifiedName closureExternsBlacklist then ret tt else
      emitJSDocType (v_hdr d) None ;;
      match namespace with
      | [] => emit (cat [nl; "var "; qualifiedName; ";"; nl])
      | _ => emit (cat [nl; qualifiedName; ";"; nl])
      end
  | BArray _ => errorUnimplementedKind (h_begin (v_hdr d)) "ArrayBindingPattern" "externs for variable"
  | BObject _ => errorUnimplementedKind (h_begin (v_hdr d)) "ObjectBindingPattern" "externs for variable"
  end.

(** [writeExternsEnum(decl, namespace)] *)
Definition writeExternsEnum (name : string) (members : list enum_member) (namespace : list string) : M unit :=
  let namespace := namespace ++ [name] in
  emit (cat [nl; "/** @const */"; nl]) ;;
  emit (cat [join "." namespace; " = {};"; nl]) ;;
  iterM (fun m =>
           emit (cat ["/** @const {number} */"; nl]) ;;
           emit (cat [join "." (namespace ++ [em_name m]); ";"; nl])) members.

Definition node_kind (n : node) : string :=
  match n with
  | ModuleDeclaration _ _ _ => "ModuleDeclaration"
  | ModuleBlock _ _ => "ModuleBlock"
  | ClassDeclaration _ _ _ => "ClassDeclaration"
  | InterfaceDeclaration _ _ _ _ _ => "InterfaceDeclaration"
  | FunctionDeclaration _ _ _ => "FunctionDeclaration"
  | VariableStatement _ _ => "VariableStatement"
  | EnumDeclaration _ _ _ => "EnumDeclaration"
  | OtherNode _ k => k
  end.

(** [visitExterns(node, namespace)]: the sink is swapped to the externs
    array on entry and restored on exit. *)
Fixpoint visitExterns (n : node) (namespace : list string) : M unit :=
  originalOutput <- get_sink ;;
  set_sink ExternsBuf ;;
  match n with
  | ModuleDeclaration _ (MIdent name) body =>
      let namespace := namespace ++ [name] in
      let nsName := join "." namespace in
      e <- get_emitted ;;
      when (negb (JsObj.has e nsName))
        (emit (cat ["/** @const */"; nl]) ;;
         if Nat.ltb 1 (List.length namespace)
         then emit (cat [join "." namespace; " = {};"; nl])
         else emit (cat ["var "; join "," namespace; " = {};"; nl])) ;;
      mark_emitted nsName ;;
      visitExterns body namespace
  | ModuleDeclaration _ (MString _) _ => ret tt
  | ModuleBlock _ stmts => iterM (fun stmt => visitExterns stmt namespace) stmts
  | ClassDeclaration _ name members => writeExternsType true name members namespace
  | InterfaceDeclaration _ name _ _ members => writeExternsType false name members namespace
  | FunctionDeclaration _ name f =>
      emitFunctionType f [] ;;
      writeExternsFunction name (params_text (f_params f)) namespace
  | VariableStatement _ decls => iterM (writeExternsVariable namespace) decls
  | EnumDeclaration _ name members => writeExternsEnum name members namespace
  | OtherNode _ kind => emit (cat [nl; "/* TODO: "; kind; " in "; join "." namespace; " */"; nl])
  end ;;
  set_sink originalOutput.

(** The enum members gathered by [maybeProcessEnum]: name to constant
    value ([inl]) or non-constant initializer ([inr]), in a JS object. *)
Fixpoint gather (i : num) (members : JsObj.t (V:=num + expr)) (ms : list enum_member)
  : JsObj.t (V:=num + expr) :=
  match ms with
  | [] => members
  | m :: ms' =>
      match em_init m with
      | Some init =>
          match em_const m with
          | Some c => gather (num_add1 c) (JsObj.set members (em_name m) (inl c)) ms'
          | None => gather i (JsObj.set members (em_name m) (inr init)) ms'
          end
      | None => gather (num_add1 i) (JsObj.set members (em_name m) (inl i)) ms'
      end
  end.

(** The [foo.BAR = 0;] line of one member. *)
Definition emit_enum_value (name member : string) (value : num + expr) : M unit :=
  when (negb untyped) (emit (cat ["/** @type {number} */"; nl])) ;;
  emit (cat [name; "."; member; " = "]) ;;
  match value with
  | inl n => emit (num_str n)
  | inr e => visit_expr e
  end ;;
  emit (cat [";"; nl]).

(** The [foo[foo.BAR] = 'BAR';] line of one member. *)
Definition emit_enum_reverse (name member : string) : M unit :=
  emit (cat [name; "["; name; "."; member; "] = "; dq; member; dq; ";"; nl]).

(** The declaration lines [type Foo = number;] and [let Foo: any = {};]. *)
Definition emit_enum_header (export : bool) (name : string) : M unit :=
  emit nl ;;
  when export (emit "export ") ;;
  emit (cat ["type "; name; " = number;"; nl]) ;;
  when export (emit "export ") ;;
  emit (cat ["let "; name; ": any = {};"; nl]).

(** [maybeProcessEnum(node)] *)
Definition maybeProcessEnum (h : hdr) (name : string) (ms : list enum_member) : M bool :=
  if h_const h then ret false else
  let members := gather num_zero JsObj.empty ms in
  emit_enum_header (h_export h) name ;;
  iterM (fun k => match JsObj.get members k with
                   | Some v => emit_enum_value name k v
                   | None => ret tt       (* [k] is a key of [members] *)
                   end) (JsObj.keys members) ;;
  iterM (fun k => emit_enum_reverse name k) (JsObj.keys members) ;;
  ret true.

(** [maybeProcess(node)]: the ambient test, then the InterfaceDeclaration
    and EnumDeclaration cases of the switch. *)
Definition maybeProcess (n : node) : M bool :=
  let h := node_hdr n in
  if h_ambient h then
    visitExterns n [] ;;
    emit (h_text h) ;;
    ret true
  else
    match n with
    | InterfaceDeclaration h name tparams heritage members =>
        emitInterface name tparams heritage members ;;
        emit (h_text h) ;;
        ret true
    | EnumDeclaration h name ms => maybeProcessEnum h name ms
    | _ => process_other n
    end.

(** ** Specification-side definitions *)



(** A node header with other leading comments. *)
Definition with_comments (h : hdr) (cs : list (nat * string)) : hdr :=
  mkHdr (h_ambient h) (h_const h) (h_export h) (h_text h) (h_start h) (h_begin h) cs (h_type h).

Definition fn_with_comments (f : fn) (cs : list (nat * string)) : fn :=
  mkFn (with_comments (f_hdr f) cs) (f_ctor f) (f_params f) (f_ret f).

(** ** Frame lemmas: what leaves the sink and the main output alone *)

(** [m], run with the externs array as sink, keeps it as sink and does
    not touch the main output. *)
Definition keeps_main {A} (m : M A) : Prop :=
  forall s, sink s = ExternsBuf -> sink (snd (m s)) = ExternsBuf /\ main (snd (m s)) = main s.

(** [m] leaves the sink as it found it and does not touch the main output. *)
Definition restores {A} (m : M A) : Prop :=
  forall s, sink (snd (m s)) = sink s /\ main (snd (m s)) = main s.

Lemma keeps_ret {A} (a : A) : keeps_main (ret a).
Proof. intros s H; simpl; auto. Qed.

Lemma keeps_bind {A B} (m : M A) (f : A -> M B) :
  keeps_main m -> (forall a, keeps_main (f a)) -> keeps_main (bind m f).
Proof.
  intros Hm Hf s Hs; unfold bind.
  destruct (m s) as [a s1] eqn:E.
  destruct (Hm s Hs) as [H1 H2]; rewrite E in H1, H2; simpl in H1, H2.
  destruct (Hf a s1 H1) as [H3 H4]; split; congruence.
Qed.

Lemma keeps_emit x : keeps_main (emit x).
Proof. intros s Hs; unfold emit; rewrite Hs; simpl; auto. Qed.

Lemma keeps_error p x : keeps_main (error p x).
Proof. intros s Hs; simpl; auto. Qed.

Lemma keeps_mark k : keeps_main (mark_emitted k).
Proof. intros s Hs; simpl; auto. Qed.

Lemma keeps_get_emitted : keeps_main get_emitted.
Proof. intros s Hs; simpl; auto. Qed.

Lemma keeps_when b m : keeps_main m -> keeps_main (when b m).
Proof. destruct b; simpl; auto using keeps_ret. Qed.

Lemma keeps_iterM {A} (f : A -> M unit) l :
  (forall x, In x l -> keeps_main (f x)) -> keeps_main (iterM f l).
Proof.
  induction l as [|x l IH]; simpl; intros H.
  - apply keeps_ret.
  - apply keeps_bind; [apply H; auto | intros _; apply IH; auto].
Qed.

Lemma restores_keeps {A} (m : M A) : restores m -> keeps_main m.
Proof. intros H s Hs; destruct (H s); split; congruence. Qed.

Create HintDb frame.
#[local] Hint Resolve keeps_ret keeps_emit keeps_error keeps_mark keeps_get_emitted : frame.

Ltac frame :=
  repeat match goal with
  | |- keeps_main (bind _ _) => apply keeps_bind; [|intro]
  | |- keeps_main (when _ _) => apply keeps_when
  | |- keeps_main (iterM _ _) => apply keeps_iterM; intros ? ?
  | |- keeps_main (match ?x with _ => _ end) => destruct x
  | |- keeps_main (if ?b then _ else _) => destruct b
  | |- keeps_main (let '(_, _) := ?x in _) => destruct x
  | |- keeps_main _ => solve [eauto with frame]
  end.

Lemma keeps_getJSDoc h : keeps_main (getJSDoc h).
Proof. unfold getJSDoc; frame. Qed.
#[local] Hint Resolve keeps_getJSDoc : frame.

Lemma keeps_emit_tag t : keeps_main (emit_tag t).
Proof. unfold emit_tag; frame. Qed.
#[local] Hint Resolve keeps_emit_tag : frame.

Lemma keeps_emitFunctionType f extra : keeps_main (emitFunctionType f extra).
Proof. unfold emitFunctionType; frame. Qed.
#[local] Hint Resolve keeps_emitFunctionType : frame.

Lemma keeps_emitJSDocType h d : keeps_main (emitJSDocType h d).
Proof. unfold emitJSDocType; frame. Qed.
#[local] Hint Resolve keeps_emitJSDocType : frame.

Lemma keeps_writeExternsFunction a b c : keeps_main (writeExternsFunction a b c).
Proof. unfold writeExternsFunction; frame. Qed.
#[local] Hint Resolve keeps_writeExternsFunction : frame.

Lemma keeps_writeExternsMember a b c : keeps_main (writeExternsMember a b c).
Proof. unfold writeExternsMember; frame. Qed.
#[local] Hint Resolve keeps_writeExternsMember : frame.

Lemma keeps_writeExternsType a b c d : keeps_main (writeExternsType a b c d).
Proof. unfold writeExternsType; frame. Qed.
#[local] Hint Resolve keeps_writeExternsType : frame.

Lemma keeps_writeExternsVariable a b : keeps_main (writeExternsVariable a b).
Proof. unfold writeExternsVariable, errorUnimplementedKind; frame. Qed.
#[local] Hint Resolve keeps_writeExternsVariable : frame.

Lemma keeps_writeExternsEnum a b c : keeps_main (writeExternsEnum a b c).
Proof. unfold writeExternsEnum; frame. Qed.
#[local] Hint Resolve keeps_writeExternsEnum : frame.

(** The swap-and-restore shape of [visitExterns]. *)
Lemma restores_swap (body : M unit) :
  keeps_main body ->
  restores (o <- get_sink ;; set_sink ExternsBuf ;; body ;; set_sink o).
Proof.
  intros Hb s; unfold bind, get_sink, set_sink at 1; simpl.
  set (s1 := mkSt (main s) (externs s) ExternsBuf (emitted s) (diags s)).
  destruct (Hb s1 eq_refl) as [H1 H2].
  destruct (body s1) as [u s2]; simpl in *; split; congruence.
Qed.

(** Induction on nodes, with the statements of a module block. *)
Section node_ind'.
Variable P : node -> Prop.
Hypothesis HMod : forall h nm b, P b -> P (ModuleDeclaration h nm b).
Hypothesis HBlock : forall h stmts, Forall P stmts -> P (ModuleBlock h stmts).
Hypothesis HClass : forall h nm ms, P (ClassDeclaration h nm ms).
Hypothesis HIface : forall h nm tp her ms, P (InterfaceDeclaration h nm tp her ms).
Hypothesis HFun : forall h nm f, P (FunctionDeclaration h nm f).
Hypothesis HVar : forall h ds, P (VariableStatement h ds).
Hypothesis HEnum : forall h nm ms, P (EnumDeclaration h nm ms).
Hypothesis HOther : forall h k, P (OtherNode h k).

Fixpoint node_ind' (n : node) : P n :=
  match n with
  | ModuleDeclaration h nm b => HMod h nm b (node_ind' b)
  | ModuleBlock h stmts =>
      HBlock h stmts
        ((fix go (l : list node) : Forall P l :=
            match l with
            | [] => Forall_nil P
            | x :: l' => Forall_cons x (node_ind' x) (go l')
            end) stmts)
  | ClassDeclaration h nm ms => HClass h nm ms
  | InterfaceDeclaration h nm tp her ms => HIface h nm tp her ms
  | FunctionDeclaration h nm f => HFun h nm f
  | VariableStatement h ds => HVar h ds
  | EnumDeclaration h nm ms => HEnum h nm ms
  | OtherNode h k => HOther h k
  end.
End node_ind'.

Lemma visitExterns_restores n : forall ns, restores (visitExterns n ns).
Proof.
  induction n using node_ind'; intros ns; cbn [visitExterns]; apply restores_swap.
  - destruct nm; frame. apply restores_keeps, IHn.
  - apply keeps_iterM; intros x Hx.
    rewrite Forall_forall in H; apply restores_keeps, H, Hx.
  - frame.
  - frame.
  - frame.
  - frame.
  - frame.
  - frame.
Qed.

(** ** Enum members through the JS object *)





(** ** The last leading comment *)

Lemma getJSDoc_last h cs c :
  getJSDoc (with_comments h (cs ++ [c])) = getJSDoc (with_comments h [c]).
Proof.
  unfold getJSDoc, with_comments; simpl.
  destruct (cs ++ [c]) as [|x l] eqn:E; [now destruct cs|].
  rewrite <- E, length_app, Nat.add_sub, nth_error_app2, Nat.sub_diag by lia.
  simpl; reflexivity.
Qed.

(** ** The ambient branch of [maybeProcess] *)

Lemma maybeProcess_ambient n s :
  h_ambient (node_hdr n) = true -> sink s = MainBuf ->
  fst (maybeProcess n s) = true /\ sink (snd (maybeProcess n s)) = MainBuf /\
  main (snd (maybeProcess n s)) = main s ++ [h_text (node_hdr n)].
Proof.
  intros Ha Hs; unfold maybeProcess; cbv zeta; rewrite Ha; unfold bind.
  destruct (visitExterns_restores n [] s) as [H1 H2].
  destruct (visitExterns n [] s) as [u s1]; simpl in *.
  unfold emit; rewrite H1, Hs; simpl; rewrite H2; auto.
Qed.

(** ** Claims about the annotator *)



(** C7: entering an ambient node swaps the sink to the externs array and
    every exit restores it: [maybeProcess] of an ambient node, started
    with the main array as sink, returns with the main array as sink, and
    the main output only gains the node's verbatim text. *)
Theorem ambient_subtree_sink_restored n s :
  h_ambient (node_hdr n) = true -> sink s = MainBuf ->
  fst (maybeProcess n s) = true /\ sink (snd (maybeProcess n s)) = MainBuf /\
  main (snd (maybeProcess n s)) = main s ++ [h_text (node_hdr n)] /\
  (forall ns, restores (visitExterns n ns)).
Proof.
  intros Ha Hs; destruct (maybeProcess_ambient n s Ha Hs) as (H1 & H2 & H3).
  refine (conj H1 (conj H2 (conj H3 _))); intros ns; apply visitExterns_restores.
Qed.

(** C8: only the last leading comment of a declaration is parsed: the
    comments before it change neither [getJSDoc] (its tags and its
    recorded faults) nor the merged annotation block of
    [emitFunctionType]. *)
Theorem only_last_leading_comment h f cs c extra :
  getJSDoc (with_comments h (cs ++ [c])) = getJSDoc (with_comments h [c]) /\
  emitFunctionType (fn_with_comments f (cs ++ [c])) extra
  = emitFunctionType (fn_with_comments f [c]) extra.
Proof.
  split; [apply getJSDoc_last|].
  unfold emitFunctionType, fn_with_comments; simpl f_hdr.
  rewrite getJSDoc_last; reflexivity.
Qed.

(** C10 (amended): with [untyped], an interface declaration adds only its
    verbatim text to the main output; a non-ambient interface changes
    nothing else (no record function, no prototype declarations), while an
    ambient one is still rendered into the externs. *)
Theorem untyped_interface_main_verbatim h name tp her ms s :
  untyped = true -> sink s = MainBuf ->
  fst (maybeProcess (InterfaceDeclaration h name tp her ms) s) = true /\
  sink (snd (maybeProcess (InterfaceDeclaration h name tp her ms) s)) = MainBuf /\
  main (snd (maybeProcess (InterfaceDeclaration h name tp her ms) s)) = main s ++ [h_text h] /\
  (h_ambient h = false ->
   snd (maybeProcess (InterfaceDeclaration h name tp her ms) s)
   = mkSt (main s ++ [h_text h]) (externs s) (sink s) (emitted s) (diags s)).
Proof.
  intros Hu Hs.
  destruct (h_ambient h) eqn:Ha.
  - destruct (maybeProcess_ambient (InterfaceDeclaration h name tp her ms) s Ha Hs)
      as (H1 & H2 & H3).
    repeat split; auto; discriminate.
  - unfold maybeProcess; simpl; rewrite Ha; unfold emitInterface; rewrite Hu.
    unfold bind, ret, emit; simpl; rewrite Hs; auto.
Qed.

End Annotator.
End Annotator.

(** ** A concrete annotator

    Types are rendered by their name, enum constants are integers, an
    enum initializer is visited verbatim, and the non-embedded cases of
    [maybeProcess] pass the node through. *)
Module Conc.

Definition translate (t : string) (_ : bool) : string := t.

Definition visit_init (e : string) : M unit := emit e.

Definition maybeProcess (untyped : bool) :=
  Annotator.maybeProcess string translate Z 0%Z Z.succ string_of_Z string visit_init
    (fun x => x) untyped (fun _ => ret false).

Definition maybeProcessEnum (untyped : bool) :=
  Annotator.maybeProcessEnum string Z 0%Z Z.succ string_of_Z string visit_init untyped.

Definition node := Annotator.node string Z string.

(** A header: ambient flag and full text; no comments, type [number]. *)
Definition hdr (ambient : bool) (text : string) : Annotator.hdr string :=
  Annotator.mkHdr string ambient false false text 0 0 [] "number".

Definition em (name : string) (c : option Z) : Annotator.enum_member Z string :=
  Annotator.mkEnumMember Z string name (option_map string_of_Z c) c.

Definition enum (ambient : bool) (name : string) (ms : list (Annotator.enum_member Z string)) : node :=
  Annotator.EnumDeclaration string Z string (hdr ambient "enum") name ms.

Definition namespace (name : string) : node :=
  Annotator.ModuleDeclaration string Z string (hdr true "namespace") (Annotator.MIdent name)
    (Annotator.ModuleBlock string Z string (hdr true "{}") []).

Definition iface (ambient : bool) (name : string) (prop : string) : node :=
  Annotator.InterfaceDeclaration string Z string (hdr ambient "interface") name false false
    [Annotator.MProperty string (hdr ambient prop) false (Annotator.NIdent prop)].

Definition s0 : st := mkSt [] [] MainBuf [] [].

(** Running [maybeProcess] on top-level statements in order. *)
Definition run (untyped : bool) (ns : list node) : st :=
  fold_left (fun s n => snd (maybeProcess untyped n s)) ns s0.

Definition tnum : string := cat ["/** @type {number} */"; nl].







(** C7 at [declare enum E {A}]. *)
Lemma ambient_subtree_sink_restored_witness :
  fst (maybeProcess false (enum true "E" [em "A" None]) s0) = true /\
  sink (snd (maybeProcess false (enum true "E" [em "A" None]) s0)) = MainBuf /\
  main (snd (maybeProcess false (enum true "E" [em "A" None]) s0)) = main s0 ++ ["enum"] /\
  (forall ns, Annotator.restores
     (Annotator.visitExterns string translate Z string false (enum true "E" [em "A" None]) ns)).
Proof.
  apply (Annotator.ambient_subtree_sink_restored string translate Z 0%Z Z.succ string_of_Z string
           visit_init (fun x => x) false (fun _ => ret false)); reflexivity.
Defined.

(** C10 at the non-ambient [interface I {x: number}] with [untyped]. *)
Lemma untyped_interface_main_verbatim_witness :
  let n := iface false "I" "x" in
  fst (maybeProcess true n s0) = true /\
  sink (snd (maybeProcess true n s0)) = MainBuf /\
  main (snd (maybeProcess true n s0)) = main s0 ++ ["interface"] /\
  (false = false -> snd (maybeProcess true n s0) = mkSt (main s0 ++ ["interface"]) [] MainBuf [] []).
Proof.
  apply (Annotator.untyped_interface_main_verbatim string translate Z 0%Z Z.succ string_of_Z string
           visit_init (fun x => x) true (fun _ => ret false)); reflexivity.
Defined.

(** C10 fails for an ambient interface: [declare interface I {x: number}]
    with [untyped] still gets the record function [function I() {}] and
    the prototype declaration [I.prototype.x;] in the externs. *)
Lemma untyped_ambient_interface_record :
  str_in (cat ["function I() {}"; nl]) (externs (run true [iface true "I" "x"])) = true /\
  str_in (cat [nl; "I.prototype.x;"; nl]) (externs (run true [iface true "I" "x"])) = true.
Proof. vm_compute; split; reflexivity. Qed.

(** C2: with [untyped], the externs of [declare enum E {A}] carry the real
    type [number] in [@const {number}], while the non-ambient enum of the
    same run leaves out its [@type {number}] annotations. *)
Theorem untyped_externs_enum_number :
  str_in (cat ["/** @const {number} */"; nl]) (externs (run true [enum true "E" [em "A" None]])) = true /\
  str_in tnum (main (run true [enum false "E" [em "A" None]])) = false.
Proof. vm_compute; split; reflexivity. Qed.

(** C3: two ambient enums [E] emit the skeleton [E = {};] twice, and two
    ambient interfaces [I] emit the record function twice, while two
    ambient namespaces [N] emit [var N = {};] once. *)
Theorem externs_skeleton_repeated :
  count_occ string_dec
    (externs (run false [enum true "E" [em "A" (Some 0%Z)]; enum true "E" [em "B" (Some 1%Z)]]))
    (cat ["E = {};"; nl]) = 2 /\
  count_occ string_dec
    (externs (run false [iface true "I" "x"; iface true "I" "y"]))
    (cat ["function I() {}"; nl]) = 2 /\
  count_occ string_dec
    (externs (run false [namespace "N"; namespace "N"]))
    (cat ["var N = {};"; nl]) = 1.
Proof. vm_compute; repeat split. Qed.

End Conc.

(** ** Faults of [getJSDocAnnotation] *)
Module JSDocFacts.
Import JSDoc.

(** A line the loop throws on: it matches [/^@(\S+) *(.STAR)/] with tag
    name [type], or with tag name [param] or [return] and a text starting
    with [{]. *)
Definition forbidden (line : list ascii) : bool :=
  match tag_match line with
  | Some (tn, tx) =>
      let n := string_of_list_ascii tn in
      String.eqb n "type" || ((String.eqb n "param" || String.eqb n "return") && first_is 123 tx)
  | None => false
  end.

Lemma parse_lines_fault lines : forall acc,
  ((exists m, parse_lines acc lines = RFault m) <-> existsb forbidden lines = true) /\
  (existsb forbidden lines = false -> exists tags, parse_lines acc lines = RTags tags).
Proof.
  induction lines as [|line rest IH]; intros acc; simpl.
  - split; [split; [intros [m H]; discriminate | discriminate] | eauto].
  - unfold forbidden; destruct (tag_match line) as [[tn tx]|].
    + destruct (String.eqb (string_of_list_ascii tn) "type"); simpl.
      { split; [split; eauto | discriminate]. }
      destruct ((String.eqb (string_of_list_ascii tn) "param"
                 || String.eqb (string_of_list_ascii tn) "return") && first_is 123 tx); simpl.
      { split; [split; eauto | discriminate]. }
      destruct (if String.eqb (string_of_list_ascii tn) "param" then _ else _) as [pn tx'].
      apply IH.
    + simpl; destruct acc; apply IH.
Qed.

(** C6 (amended): [getJSDocAnnotation] returns [null] exactly on strings
    that are not of the form [/** ... */]; on such a comment it throws iff
    some line of the body (trimmed, with each leading white space and
    [* ] removed, split at line feeds) starts with [@type] followed by
    white space or the end of the line, or with [@param] or [@return]
    followed by spaces and a [{]; otherwise it returns a tag list. *)
Theorem jsdoc_fault_iff comment :
  (jsdoc_body (list_ascii_of_string comment) = None <-> getJSDocAnnotation comment = RNull) /\
  (forall body, jsdoc_body (list_ascii_of_string comment) = Some body ->
     ((exists m, getJSDocAnnotation comment = RFault m) <-> existsb forbidden (lines_of body) = true) /\
     (existsb forbidden (lines_of body) = false ->
      exists tags, getJSDocAnnotation comment = RTags tags)).
Proof.
  unfold getJSDocAnnotation; split.
  - destruct (jsdoc_body (list_ascii_of_string comment)) as [b|]; [|tauto].
    split; [discriminate|]. intros H.
    destruct (existsb forbidden (lines_of b)) eqn:E.
    + apply (proj1 (parse_lines_fault (lines_of b) [])) in E as [m Hm]; congruence.
    + apply (proj2 (parse_lines_fault (lines_of b) [])) in E as [t Ht]; congruence.
  - intros body ->; apply parse_lines_fault.
Qed.

(** C6 as stated fails: a [/*] comment with [@type] is not a JSDoc comment
    and gives [null], and a [@type] tag that does not start its line is
    plain text. *)
Lemma jsdoc_type_without_fault :
  getJSDocAnnotation "/* @type {number} */" = RNull /\
  getJSDocAnnotation "/** Count. @type {number} */"
  = RTags [plain_tag None None (Some "Count. @type {number}")].
Proof. vm_compute; split; reflexivity. Qed.

End JSDocFacts.



(** ** The CommonJS to goog.module rewriter: [PostProcessor] *)
Module PostProcessor.

(** The expressions the rewriter looks into. *)
Inductive expr :=
| Identifier (text : string)
| StringLiteral (text : string)
| CallExpression (callee : expr) (arguments : list expr)
| PropertyAccessExpression (e : expr) (name : string)
| OtherExpression (text : string).

Inductive bname := BIdentifier (text : string) | BPattern (text : string).

Record decl := mkDecl { d_name : bname; d_init : option expr }.

(** A top-level statement; [lead] is the text between its full start and
    its start (its leading trivia). *)
Inductive stmt :=
| ExpressionStatement (lead : string) (e : expr)
| VariableStatement (lead : string) (declarations : list decl)
| OtherStatement (lead : string) (text : string).

Definition stmt_lead (node : stmt) : string :=
  match node with
  | ExpressionStatement lead _ | VariableStatement lead _ | OtherStatement lead _ => lead
  end.

Record pst := mkPst {
  output : list string;                        (* the Rewriter's output array *)
  namespaceImports : JsObj.t (V:=bool);
  moduleVariables : JsObj.t (V:=string);
  strippedStrict : bool;
  unusedIndex : nat
}.

Section PostProcessor.

Variable pathToModuleName : string -> string -> string.
Variable fileName : string.

(** Modelled from the spec: [Rewriter.visit] of a statement the top level
    does not rewrite emits the statement's text through the recursive
    traversal (where [maybeProcess] turns [x.default] into [x] for the
    names of [namespaceImports]); it is left abstract. *)
Variable visit : JsObj.t (V:=bool) -> stmt -> string.

(** Modelled from the spec: [Rewriter.emit] and [Rewriter.writeRange]
    (the base rewriter is not in the sources) append text to the output;
    [writeRange] of a node's leading trivia appends that trivia. *)
Definition emit (x : string) (s : pst) : pst :=
  mkPst (output s ++ [x]) (namespaceImports s) (moduleVariables s) (strippedStrict s) (unusedIndex s).

Definition isUseStrict (node : stmt) : bool :=
  match node with
  | ExpressionStatement _ (StringLiteral text) => String.eqb text "use strict"
  | _ => false
  end.

(** [isRequire]; [None] is [null]. *)
Definition isRequire (callee : expr) (args : list expr) : option string :=
  match callee with
  | Identifier ident =>
      if String.eqb ident "require" then
        match args with
        | [StringLiteral text] => Some text
        | _ => None
        end
      else None
  | _ => None
  end.

Definition isExportRequire (callee : expr) (args : list expr) : option string :=
  match callee with
  | Identifier ident =>
      if String.eqb ident "__export" then
        match args with
        | [CallExpression c a] => isRequire c a
        | _ => None
        end
      else None
  | _ => None
  end.

(** [require.match(/^goog:/)] *)
Definition is_goog (require : string) : bool := String.prefix "goog:" require.

(** The tail of [emitRewrittenRequires], from [let require =
    this.isRequire(call)] on; [varName] is [EmptyString] when undefined. *)
Definition rewriteRequire (lead varName : string) (callee : expr) (args : list expr) (s : pst)
  : bool * pst :=
  match isRequire callee args with
  | None => (false, s)
  | Some require =>
      if negb (truthy require) then (false, s) else
      let '(varName, unusedIndex') :=
        if negb (truthy varName)
        then (cat ["unused_"; string_of_nat (unusedIndex s); "_"], S (unusedIndex s))
        else (varName, unusedIndex s) in
      let '(modName, namespaceImports') :=
        if is_goog require
        then (substring 5 (String.length require - 5) require,
              JsObj.set (namespaceImports s) varName true)
        else (pathToModuleName fileName require, namespaceImports s) in
      let out := output s ++ [lead] in
      if JsObj.has (moduleVariables s) modName then
        let v := match JsObj.get (moduleVariables s) modName with
                 | Some v => v
                 | None => "undefined"
                 end in
        (true, mkPst (out ++ [cat ["var "; varName; " = "; v; ";"]])
                 namespaceImports' (moduleVariables s) (strippedStrict s) unusedIndex')
      else
        (true, mkPst (out ++ [cat ["var "; varName; " = goog.require('"; modName; "');"]])
                 namespaceImports' (JsObj.set (moduleVariables s) modName varName)
                 (strippedStrict s) unusedIndex')
  end.

Definition emitRewrittenRequires (node : stmt) (s : pst) : bool * pst :=
  match node with
  | VariableStatement lead [d] =>
      match d_name d, d_init d with
      | BIdentifier varName, Some (CallExpression callee args) =>
          rewriteRequire lead varName callee args s
      | _, _ => (false, s)
      end
  | VariableStatement _ _ => (false, s)
  | ExpressionStatement lead (CallExpression callee args) =>
      let export :=
        match isExportRequire callee args with
        | Some require => if truthy require then Some require else None
        | None => None
        end in
      match export with
      | Some require =>
          let modName := pathToModuleName fileName require in
          (true, mkPst (output s ++ [lead; cat ["__export(goog.require('"; modName; "'));"]])
                   (namespaceImports s) (JsObj.set (moduleVariables s) modName "*")
                   (strippedStrict s) (unusedIndex s))
      | None => rewriteRequire lead EmptyString callee args s
      end
  | ExpressionStatement _ _ => (false, s)
  | OtherStatement _ _ => (false, s)
  end.

Definition visit_default (node : stmt) (s : pst) : pst :=
  emit (visit (namespaceImports s) node) s.

Definition visitTopLevel (node : stmt) (s : pst) : pst :=
  match node with
  | ExpressionStatement lead _ =>
      if negb (strippedStrict s) && isUseStrict node then
        mkPst (output s ++ [lead]) (namespaceImports s) (moduleVariables s) true (unusedIndex s)
      else
        let '(done, s') := emitRewrittenRequires node s in
        if done then s' else visit_default node s'
  | VariableStatement _ _ =>
      let '(done, s') := emitRewrittenRequires node s in
      if done then s' else visit_default node s'
  | OtherStatement _ _ => visit_default node s
  end.

(** The loop of [process]: consecutive statements leave no gap between
    the end of one and the full start of the next. *)
Definition run (stmts : list stmt) (s : pst) : pst :=
  fold_left (fun s n => visitTopLevel n s) stmts s.

Definition init : pst :=
  mkPst [cat ["goog.module('"; pathToModuleName EmptyString fileName; "');"]] [] [] false 0.

(** [process]: [trailing] is the text after the last statement;
    returns [output] and [referencedModules]. *)
Definition process (stmts : list stmt) (trailing : string) : string * list string :=
  let s := run stmts init in
  (String.concat EmptyString (output s ++ [trailing]), JsObj.keys (moduleVariables s)).

(** *** Statements used in the claims *)

Definition var_require (lead x r : string) : stmt :=
  VariableStatement lead
    [mkDecl (BIdentifier x) (Some (CallExpression (Identifier "require") [StringLiteral r]))].


(** The module identifier [emitRewrittenRequires] gives a required path. *)
Definition resolve (require : string) : string :=
  if is_goog require then substring 5 (String.length require - 5) require
  else pathToModuleName fileName require.

Definition call_target (callee : expr) (args : list expr) : option string :=
  match isRequire callee args with
  | Some r => if truthy r then Some (resolve r) else None
  | None => None
  end.

(** The module a top-level statement is rewritten to require, if any. *)
Definition target (node : stmt) : option string :=
  match node with
  | VariableStatement _ [mkDecl (BIdentifier _) (Some (CallExpression c a))] => call_target c a
  | ExpressionStatement _ (CallExpression c a) =>
      match isExportRequire c a with
      | Some r => if truthy r then Some (pathToModuleName fileName r) else call_target c a
      | None => call_target c a
      end
  | _ => None
  end.

Definition targets (stmts : list stmt) : list string :=
  flat_map (fun n => match target n with Some m => [m] | None => [] end) stmts.



(** A statement that neither requires a module named [hasOwnProperty]
    nor binds a variable of that name to a [require]: the two ways a key
    [hasOwnProperty] enters [moduleVariables] or [namespaceImports], after
    which [this.moduleVariables.hasOwnProperty(modName)] and
    [this.namespaceImports.hasOwnProperty(lhs)] throw a [TypeError]. *)
Definition plain_stmt (node : stmt) : bool :=
  match target node with Some m => negb (String.eqb m "hasOwnProperty") | None => true end &&
  match node with
  | VariableStatement _ [mkDecl (BIdentifier x) (Some (CallExpression _ _))] =>
      negb (String.eqb x "hasOwnProperty")
  | _ => true
  end.

Definition plain_stmts (l : list stmt) : bool := forallb plain_stmt l.

(** Neither map has an own key [hasOwnProperty]: the [hasOwnProperty]
    calls on them return [JsObj.has] and do not throw. *)
Definition safe (s : pst) : bool :=
  negb (JsObj.has (moduleVariables s) "hasOwnProperty")
  && negb (JsObj.has (namespaceImports s) "hasOwnProperty").

(** *** Lemmas *)



Lemma str_in_app x l l' : str_in x (l ++ l') = str_in x l || str_in x l'.
Proof. unfold str_in; apply existsb_app. Qed.




Lemma rewriteRequire_cases lead x c a s :
  (call_target c a = None /\ rewriteRequire lead x c a s = (false, s)) \/
  (exists m, call_target c a = Some m /\ fst (rewriteRequire lead x c a s) = true /\
     strippedStrict (snd (rewriteRequire lead x c a s)) = strippedStrict s /\
     ((JsObj.has (moduleVariables s) m = true /\
       moduleVariables (snd (rewriteRequire lead x c a s)) = moduleVariables s) \/
      (JsObj.has (moduleVariables s) m = false /\
       exists v, moduleVariables (snd (rewriteRequire lead x c a s))
                 = JsObj.set (moduleVariables s) m v))).
Proof.
  unfold rewriteRequire, call_target.
  destruct (isRequire c a) as [r|]; [|left; auto].
  destruct (truthy r) eqn:T; simpl; [|left; auto].
  right; exists (resolve r); unfold resolve.
  destruct (negb (truthy x)), (is_goog r);
    [destruct (JsObj.has (moduleVariables s) (substring 5 (String.length r - 5) r)) eqn:H
    |destruct (JsObj.has (moduleVariables s) (pathToModuleName fileName r)) eqn:H
    |destruct (JsObj.has (moduleVariables s) (substring 5 (String.length r - 5) r)) eqn:H
    |destruct (JsObj.has (moduleVariables s) (pathToModuleName fileName r)) eqn:H];
    simpl; eauto 10.
Qed.

Lemma visit_default_mv n s : moduleVariables (visit_default n s) = moduleVariables s.
Proof. reflexivity. Qed.

(** How one top-level statement changes [moduleVariables]. *)
Lemma step_cases n s :
  (target n = None /\ moduleVariables (visitTopLevel n s) = moduleVariables s) \/
  (exists m, target n = Some m /\
     moduleVariables (visitTopLevel n s) = JsObj.set (moduleVariables s) m "*") \/
  (exists m, target n = Some m /\ JsObj.has (moduleVariables s) m = true /\
     moduleVariables (visitTopLevel n s) = moduleVariables s) \/
  (exists m v, target n = Some m /\ JsObj.has (moduleVariables s) m = false /\
     moduleVariables (visitTopLevel n s) = JsObj.set (moduleVariables s) m v).
Proof.
  assert (Hrw : forall lead x c a b s',
    rewriteRequire lead x c a s = (b, s') ->
    (call_target c a = None /\ moduleVariables (if b then s' else visit_default n s') = moduleVariables s) \/
    (exists m, call_target c a = Some m /\ JsObj.has (moduleVariables s) m = true /\
       moduleVariables (if b then s' else visit_default n s') = moduleVariables s) \/
    (exists m v, call_target c a = Some m /\ JsObj.has (moduleVariables s) m = false /\
       moduleVariables (if b then s' else visit_default n s') = JsObj.set (moduleVariables s) m v)).
  { intros lead x c a b s' E.
    destruct (rewriteRequire_cases lead x c a s) as [[Ht Hr] | [m [Ht [Hb [_ [[Hh Hm] | [Hh [v Hm]]]]]]]];
      rewrite E in *; simpl in *.
    - injection Hr as Hb Hs; subst; left; split; [assumption | reflexivity].
    - subst b; right; left; eauto.
    - subst b; right; right; eauto. }
  destruct n as [lead e | lead ds | lead t]; simpl.
  - destruct (negb (strippedStrict s) && isUseStrict (ExpressionStatement lead e)) eqn:U.
    + destruct e; simpl in U |- *; try (rewrite andb_false_r in U; discriminate).
      rewrite U; left; split; reflexivity.
    + destruct e as [i|t|c a|e' nm|t]; simpl in U |- *; rewrite U;
        try (left; split; reflexivity; fail).
      destruct (match isExportRequire c a with
                | Some require => if truthy require then Some require else None
                | None => None end) as [r|] eqn:Ex.
      * right; left; exists (pathToModuleName fileName r); split; [|reflexivity].
        destruct (isExportRequire c a) as [r'|]; [|discriminate].
        destruct (truthy r'); [injection Ex as ->; reflexivity | discriminate].
      * assert (Ht : target (ExpressionStatement lead (CallExpression c a)) = call_target c a).
        { simpl; destruct (isExportRequire c a) as [r'|]; [|reflexivity].
          destruct (truthy r'); [discriminate | reflexivity]. }
        simpl in Ht; rewrite Ht.
        destruct (rewriteRequire lead EmptyString c a s) as [b s'] eqn:E.
        destruct (Hrw _ _ _ _ _ _ E) as [[H1 H2] | [[m [H1 [H2 H3]]] | [m [v [H1 [H2 H3]]]]]].
        -- left; split; assumption.
        -- right; right; left; eauto.
        -- right; right; right; eauto.
  - destruct ds as [|[nm ini] [|d' ds]]; simpl.
    + left; split; reflexivity.
    + destruct nm as [x|x]; simpl; [|left; split; reflexivity].
      destruct ini as [[i|t|c a|e' nm|t]|]; simpl; try (left; split; reflexivity; fail).
      destruct (rewriteRequire lead x c a s) as [b s'] eqn:E.
      destruct (Hrw _ _ _ _ _ _ E) as [[H1 H2] | [[m [H1 [H2 H3]]] | [m [v [H1 [H2 H3]]]]]].
      * left; split; assumption.
      * right; right; left; eauto.
      * right; right; right; eauto.
    + left; split; [destruct nm; [destruct ini as [[]|]|]; reflexivity | reflexivity].
  - left; split; reflexivity.
Qed.

Lemma run_cons n l s : run (n :: l) s = run l (visitTopLevel n s).
Proof. reflexivity. Qed.

Lemma run_app l l' s : run (l ++ l') s = run l' (run l s).
Proof. unfold run; apply fold_left_app. Qed.





Lemma get_step_other n s k :
  target n <> Some k ->
  JsObj.get (moduleVariables (visitTopLevel n s)) k = JsObj.get (moduleVariables s) k.
Proof.
  intros Hk.
  destruct (step_cases n s) as [[Ht Hm] | [[m [Ht Hm]] | [[m [Ht [Hh Hm]]] | [m [v [Ht [Hh Hm]]]]]]];
    rewrite Hm; auto; apply JsObjFacts.get_set_other; congruence.
Qed.

Lemma get_run_other l k : forall s,
  str_in k (targets l) = false ->
  JsObj.get (moduleVariables (run l s)) k = JsObj.get (moduleVariables s) k.
Proof.
  induction l as [|n l IH]; intros s H; [reflexivity|].
  simpl in H; rewrite str_in_app in H; apply orb_false_iff in H as [H1 H2].
  rewrite run_cons, IH by auto; apply get_step_other.
  intros Ht; rewrite Ht in H1; simpl in H1; rewrite String.eqb_refl in H1; discriminate.
Qed.

Lemma get_set_self {V} (o : JsObj.t (V:=V)) k v :
  JsObj.get (JsObj.set o k v) k = if String.eqb k "__proto__" then JsObj.get o k else Some v.
Proof.
  unfold JsObj.set; destruct (String.eqb k "__proto__"); [reflexivity|].
  apply JsObjFacts.get_put_same.
Qed.



Lemma emitRewrittenRequires_ss n s :
  strippedStrict (snd (emitRewrittenRequires n s)) = strippedStrict s.
Proof.
  assert (Hrw : forall lead x c a,
    strippedStrict (snd (rewriteRequire lead x c a s)) = strippedStrict s).
  { intros lead x c a.
    destruct (rewriteRequire_cases lead x c a s) as [[_ Hr] | [m [_ [_ [H _]]]]]; auto.
    rewrite Hr; reflexivity. }
  destruct n as [lead e | lead ds | lead t]; simpl; auto.
  - destruct e as [i|t|c a|e' nm|t]; simpl; auto.
    destruct (isExportRequire c a) as [r|]; [destruct (truthy r)|]; simpl; auto.
  - destruct ds as [|[nm ini] [|d' ds]]; simpl; auto.
    destruct nm; simpl; auto.
    destruct ini as [[i|t|c a|e' nm|t]|]; simpl; auto.
Qed.

Lemma ss_step n s :
  strippedStrict (visitTopLevel n s) = strippedStrict s || isUseStrict n.
Proof.
  assert (H : forall b s', emitRewrittenRequires n s = (b, s') ->
            strippedStrict (if b then s' else visit_default n s') = strippedStrict s).
  { intros b s' E; pose proof (emitRewrittenRequires_ss n s) as Hs; rewrite E in Hs.
    destruct b; exact Hs. }
  destruct n as [lead e | lead ds | lead t]; cbn [visitTopLevel].
  - destruct (negb (strippedStrict s) && isUseStrict (ExpressionStatement lead e)) eqn:U.
    + apply andb_prop in U as [_ U]; rewrite U, orb_true_r; reflexivity.
    + destruct (emitRewrittenRequires (ExpressionStatement lead e) s) as [b s'] eqn:E.
      rewrite (H b s' eq_refl).
      destruct (strippedStrict s), (isUseStrict (ExpressionStatement lead e)); auto.
  - destruct (emitRewrittenRequires (VariableStatement lead ds) s) as [b s'] eqn:E.
    rewrite (H b s' eq_refl), orb_false_r; reflexivity.
  - rewrite orb_false_r; reflexivity.
Qed.

Lemma ss_run l : forall s,
  strippedStrict (run l s) = strippedStrict s || existsb isUseStrict l.
Proof.
  induction l as [|n l IH]; intros s; [simpl; now rewrite orb_false_r|].
  rewrite run_cons, IH, ss_step, <- orb_assoc; reflexivity.
Qed.





(** How one top-level statement changes [namespaceImports]: a new key is
    the variable named by the statement or a generated [unused_k_]. *)
Lemma ni_rewriteRequire lead x c a s :
  String.eqb x "hasOwnProperty" = false ->
  JsObj.has (namespaceImports (snd (rewriteRequire lead x c a s))) "hasOwnProperty"
  = JsObj.has (namespaceImports s) "hasOwnProperty".
Proof.
  intros Hx; unfold rewriteRequire.
  destruct (isRequire c a) as [r|]; [|reflexivity].
  destruct (negb (truthy r)); [reflexivity|].
  assert (Hv : forall y, String.eqb y "hasOwnProperty" = false ->
            JsObj.has (JsObj.set (namespaceImports s) y true) "hasOwnProperty"
            = JsObj.has (namespaceImports s) "hasOwnProperty").
  { intros y Hy; rewrite JsObjFacts.has_set, String.eqb_sym, Hy; apply orb_false_r. }
  destruct (negb (truthy x)), (is_goog r); cbv iota beta zeta;
    destruct (JsObj.has (moduleVariables s) _); simpl namespaceImports; auto.
Qed.

Lemma ni_emitRewrittenRequires n s :
  plain_stmt n = true ->
  JsObj.has (namespaceImports (snd (emitRewrittenRequires n s))) "hasOwnProperty"
  = JsObj.has (namespaceImports s) "hasOwnProperty".
Proof.
  intros Hp; unfold emitRewrittenRequires.
  destruct n as [lead e | lead ds | lead t]; [| |reflexivity].
  - destruct e as [i|t|c a|e' nm|t]; try reflexivity.
    destruct (match isExportRequire c a with
              | Some require => if truthy require then Some require else None
              | None => None end); [reflexivity|].
    apply ni_rewriteRequire; reflexivity.
  - destruct ds as [|[nm ini] [|d' ds]]; try reflexivity.
    destruct nm as [x|x]; cbn [d_name d_init]; [|reflexivity].
    destruct ini as [[i|t|c a|e' nm|t]|]; try reflexivity.
    apply ni_rewriteRequire.
    unfold plain_stmt in Hp; apply andb_prop in Hp as [_ Hp]; apply negb_true_iff, Hp.
Qed.

Lemma safe_step n s : safe s = true -> plain_stmt n = true -> safe (visitTopLevel n s) = true.
Proof.
  intros Hs Hp; unfold safe in *; apply andb_prop in Hs as [Hm Hn].
  apply andb_true_intro; split.
  - destruct (step_cases n s) as [[Ht H] | [[m [Ht H]] | [[m [Ht [Hh H]]] | [m [v [Ht [Hh H]]]]]]];
      rewrite H; auto;
      unfold plain_stmt in Hp; rewrite Ht in Hp; apply andb_prop in Hp as [Hp _];
      rewrite JsObjFacts.has_set, String.eqb_sym; apply negb_true_iff in Hp; rewrite Hp;
      rewrite orb_false_r; exact Hm.
  - assert (Hif : forall b s', emitRewrittenRequires n s = (b, s') ->
              JsObj.has (namespaceImports (if b then s' else visit_default n s')) "hasOwnProperty"
              = JsObj.has (namespaceImports s) "hasOwnProperty").
    { intros b s' E; pose proof (ni_emitRewrittenRequires n s Hp) as He; rewrite E in He.
      destruct b; exact He. }
    destruct n as [lead e | lead ds | lead t]; cbn [visitTopLevel]; [| |exact Hn].
    + destruct (negb (strippedStrict s) && isUseStrict (ExpressionStatement lead e)); [exact Hn|].
      destruct (emitRewrittenRequires (ExpressionStatement lead e) s) as [b s'] eqn:E.
      rewrite (Hif b s' eq_refl); exact Hn.
    + destruct (emitRewrittenRequires (VariableStatement lead ds) s) as [b s'] eqn:E.
      rewrite (Hif b s' eq_refl); exact Hn.
Qed.

Lemma safe_run l : forall s, safe s = true -> plain_stmts l = true -> safe (run l s) = true.
Proof.
  induction l as [|n l IH]; intros s Hs Hl; [exact Hs|].
  simpl in Hl; apply andb_prop in Hl as [Hn Hl].
  rewrite run_cons; apply IH; [apply safe_step|]; assumption.
Qed.


(** *** Claims about the module rewriter *)




Lemma safe_init : safe init = true.
Proof. reflexivity. Qed.


(** C5 (amended): the first top-level statement that is an expression
    statement made of a string literal with value [use strict] is dropped
    (only its leading trivia is kept), wherever it stands; from then on
    every such statement is left to the ordinary traversal. *)
Theorem use_strict_stripped_once pre u :
  forallb (fun n => negb (isUseStrict n)) pre = true -> isUseStrict u = true ->
  let s1 := run pre init in
  strippedStrict s1 = false /\
  visitTopLevel u s1
  = mkPst (output s1 ++ [stmt_lead u]) (namespaceImports s1) (moduleVariables s1) true (unusedIndex s1) /\
  (forall l, strippedStrict (run l (visitTopLevel u s1)) = true) /\
  (forall s n, strippedStrict s = true -> isUseStrict n = true -> visitTopLevel n s = visit_default n s).
Proof.
  intros Hpre Hu s1.
  assert (Hs1 : strippedStrict s1 = false).
  { unfold s1; rewrite ss_run; simpl.
    clear - Hpre; induction pre as [|n pre IH]; simpl in *; auto.
    apply andb_prop in Hpre as [H1 H2]; apply negb_true_iff in H1; rewrite H1; auto. }
  assert (Hstep : visitTopLevel u s1
    = mkPst (output s1 ++ [stmt_lead u]) (namespaceImports s1) (moduleVariables s1) true (unusedIndex s1)).
  { destruct u as [lead e | lead ds | lead t]; try (simpl in Hu; discriminate).
    cbn [visitTopLevel]; rewrite Hs1, Hu; reflexivity. }
  split; [exact Hs1|]; split; [exact Hstep|]; split.
  - intros l; rewrite ss_run, Hstep; reflexivity.
  - intros s n Hs Hn.
    destruct n as [lead e | lead ds | lead t]; simpl in Hn; try discriminate.
    destruct e; try discriminate.
    cbn [visitTopLevel]; rewrite Hs; reflexivity.
Qed.



(** *** More of the module rewriter *)

(** [PostProcessor.maybeProcess], called by the traversal on each
    expression; [lead] is the node's leading trivia. *)
Definition maybeProcess (lead : string) (node : expr) (s : pst) : bool * pst :=
  match node with
  | PropertyAccessExpression e name =>
      if negb (String.eqb name "default") then (false, s) else
      match e with
      | Identifier lhs =>
          if negb (JsObj.has (namespaceImports s) lhs) then (false, s)
          else (true, emit (cat [lhs; "        "]) (emit lead s))
      | _ => (false, s)
      end
  | _ => (false, s)
  end.

(** [require('foo');]: a require for its side effects. *)
Definition bare_require (lead r : string) : stmt :=
  ExpressionStatement lead (CallExpression (Identifier "require") [StringLiteral r]).

(** The fresh name [emitRewrittenRequires] gives the [i]-th unnamed import. *)
Definition unused_name (i : nat) : string := cat ["unused_"; string_of_nat i; "_"].

Definition rewritten_call (c : expr) (a : list expr) : bool :=
  match call_target c a with Some _ => true | None => false end.

(** The statements that [emitRewrittenRequires] rewrites with a generated
    variable name. *)
Definition is_bare_require (node : stmt) : bool :=
  match node with
  | VariableStatement _ [mkDecl (BIdentifier x) (Some (CallExpression c a))] =>
      negb (truthy x) && rewritten_call c a
  | ExpressionStatement _ (CallExpression c a) =>
      match isExportRequire c a with
      | Some r => if truthy r then false else rewritten_call c a
      | None => rewritten_call c a
      end
  | _ => false
  end.

Local Ltac case_all :=
  repeat match goal with
         | |- context [match ?x with _ => _ end] =>
             lazymatch type of x with
             | bool => destruct x
             | option _ => destruct x
             | list _ => destruct x
             | expr => destruct x
             | bname => destruct x
             | stmt => destruct x
             end
         end.

Lemma rewriteRequire_index lead x c a s :
  unusedIndex (snd (rewriteRequire lead x c a s))
  = unusedIndex s + (if negb (truthy x) && rewritten_call c a then 1 else 0).
Proof.
  unfold rewritten_call, call_target, rewriteRequire.
  destruct (isRequire c a) as [r|]; [|rewrite andb_false_r; simpl; lia].
  destruct (truthy r); [|rewrite andb_false_r; simpl; lia].
  destruct (truthy x); simpl; case_all; simpl; lia.
Qed.

Lemma index_step n s :
  unusedIndex (visitTopLevel n s) = unusedIndex s + (if is_bare_require n then 1 else 0).
Proof.
  destruct n as [lead e | lead ds | lead t]; cbn [visitTopLevel].
  - destruct (negb (strippedStrict s) && isUseStrict (ExpressionStatement lead e)) eqn:U.
    + destruct e; simpl in U |- *; try (rewrite andb_false_r in U; discriminate); lia.
    + destruct e as [i|t|c a|e' nm|t]; cbn [emitRewrittenRequires is_bare_require];
        try (simpl; lia).
      destruct (isExportRequire c a) as [r|]; [destruct (truthy r)|]; try (simpl; lia);
        destruct (rewriteRequire lead EmptyString c a s) as [b s'] eqn:E;
        pose proof (rewriteRequire_index lead EmptyString c a s) as H; rewrite E in H;
        destruct b; simpl in H |- *; exact H.
  - destruct ds as [|[nm ini] [|d' ds]]; cbn [emitRewrittenRequires is_bare_require].
    + simpl; lia.
    + destruct nm as [x|x]; cbn [d_name d_init]; [|simpl; lia].
      destruct ini as [[i|t|c a|e' nm|t]|]; try (simpl; lia).
      destruct (rewriteRequire lead x c a s) as [b s'] eqn:E.
      pose proof (rewriteRequire_index lead x c a s) as H; rewrite E in H.
      destruct b; simpl in H |- *; exact H.
    + destruct nm; [destruct ini as [[]|]|]; simpl; lia.
  - simpl; lia.
Qed.

Lemma index_run l : forall s,
  unusedIndex (run l s) = unusedIndex s + List.length (filter is_bare_require l).
Proof.
  induction l as [|n l IH]; intros s; [simpl; lia|].
  rewrite run_cons, IH, index_step; simpl; destruct (is_bare_require n); simpl; lia.
Qed.






Lemma namespaceImports_rewriteRequire lead x c a s y :
  JsObj.has (namespaceImports s) y = true ->
  JsObj.has (namespaceImports (snd (rewriteRequire lead x c a s))) y = true.
Proof.
  intros H; unfold rewriteRequire; case_all; cbn [snd namespaceImports];
    rewrite ?JsObjFacts.has_set, ?H; reflexivity.
Qed.

Lemma namespaceImports_step n s y :
  JsObj.has (namespaceImports s) y = true ->
  JsObj.has (namespaceImports (visitTopLevel n s)) y = true.
Proof.
  intros H.
  assert (Hif : forall b s', emitRewrittenRequires n s = (b, s') ->
            JsObj.has (namespaceImports (if b then s' else visit_default n s')) y = true).
  { intros b s' E.
    assert (He : JsObj.has (namespaceImports (snd (emitRewrittenRequires n s))) y = true).
    { unfold emitRewrittenRequires; case_all;
        first [apply namespaceImports_rewriteRequire; exact H | exact H]. }
    rewrite E in He; destruct b; exact He. }
  destruct n as [lead e | lead ds | lead t]; cbn [visitTopLevel].
  - destruct (negb (strippedStrict s) && isUseStrict (ExpressionStatement lead e)); [exact H|].
    destruct (emitRewrittenRequires (ExpressionStatement lead e) s) as [b s'] eqn:E; eauto.
  - destruct (emitRewrittenRequires (VariableStatement lead ds) s) as [b s'] eqn:E; eauto.
  - exact H.
Qed.

Lemma namespaceImports_run l : forall s y,
  JsObj.has (namespaceImports s) y = true ->
  JsObj.has (namespaceImports (run l s)) y = true.
Proof.
  induction l as [|n l IH]; intros s y H; [exact H|].
  rewrite run_cons; apply IH, namespaceImports_step, H.
Qed.



(** [unusedIndex] counts the requires that were given a generated name. *)
Theorem unused_index_counts l s :
  unusedIndex (run l s) = unusedIndex s + List.length (filter is_bare_require l).
Proof. apply index_run. Qed.

(** A bare [require(r);] of a module [M] other than [__proto__], not
    required before, becomes [var unused_k_ = goog.require('M');], where
    [k] counts the earlier statements that were given a generated name,
    so the generated names are [unused_0_], [unused_1_], ... in order and
    never repeat; this for a file whose statements up to it do not
    require a module named [hasOwnProperty] nor bind a variable of that
    name to a [require] (so that no [hasOwnProperty] call throws). *)
Theorem bare_require_named pre lead r :
  truthy r = true -> str_in (resolve r) (targets pre) = false ->
  String.eqb (resolve r) "__proto__" = false ->
  plain_stmts (pre ++ [bare_require lead r]) = true ->
  let s1 := run pre init in
  let k := List.length (filter is_bare_require pre) in
  let s2 := visitTopLevel (bare_require lead r) s1 in
  output s2 = output s1 ++ [lead; cat ["var "; unused_name k; " = goog.require('"; resolve r; "');"]] /\
  JsObj.get (moduleVariables s2) (resolve r) = Some (unused_name k) /\
  unusedIndex s2 = S k /\
  safe s2 = true.
Proof.
  intros Hr Hpre Hp Hplain s1 k s2.
  assert (Hsafe : safe s2 = true).
  { unfold s2, s1.
    replace (visitTopLevel (bare_require lead r) (run pre init))
      with (run (pre ++ [bare_require lead r]) init) by (rewrite run_app; reflexivity).
    apply safe_run; [reflexivity | exact Hplain]. }
  assert (Hk : unusedIndex s1 = k) by (unfold s1, k; rewrite index_run; reflexivity).
  assert (Hh : JsObj.has (moduleVariables s1) (resolve r) = false)
    by (unfold s1; rewrite JsObjFacts.has_get, get_run_other by exact Hpre; reflexivity).
  split; [|split; [|split; [|exact Hsafe]]];
  unfold s2, visitTopLevel, emitRewrittenRequires, bare_require, rewriteRequire; simpl;
  rewrite Hr; simpl; revert Hh Hp; unfold resolve, unused_name; rewrite <- Hk;
  destruct (is_goog r); intros Hh Hp; rewrite andb_false_r, Hh; simpl;
    rewrite ?get_set_self, ?Hp, <- ?app_assoc; reflexivity.
Qed.

(** After [var x = require('goog:p')], with [x] other than [__proto__],
    at any later point of the file [maybeProcess] rewrites [x.default] to
    [x] followed by eight spaces, keeping its length so that source maps
    still line up; this as long as neither that statement nor the later
    ones require a module named [hasOwnProperty] or bind a variable of
    that name to a [require] (so that no [hasOwnProperty] call throws,
    the one of [maybeProcess] included). *)
Theorem goog_import_default s lead x r mid l :
  truthy x = true -> truthy r = true -> is_goog r = true ->
  String.eqb x "__proto__" = false ->
  safe s = true -> plain_stmts (var_require lead x r :: mid) = true ->
  let s2 := run mid (visitTopLevel (var_require lead x r) s) in
  maybeProcess l (PropertyAccessExpression (Identifier x) "default") s2
  = (true, emit (cat [x; "        "]) (emit l s2)) /\
  String.length (cat [x; "        "]) = String.length (cat [x; ".default"]) /\
  safe s2 = true.
Proof.
  intros Hx Hr Hg Hp Hs Hplain s2.
  assert (Hn : JsObj.has (namespaceImports (visitTopLevel (var_require lead x r) s)) x = true).
  { unfold visitTopLevel, emitRewrittenRequires, var_require, rewriteRequire; simpl.
    rewrite Hr, Hx, Hg; simpl.
    destruct (JsObj.has (moduleVariables s) (substring 5 (String.length r - 5) r)); simpl;
      rewrite JsObjFacts.has_set, String.eqb_refl, Hp; apply orb_true_r. }
  split; [|split].
  - unfold maybeProcess; simpl; unfold s2; rewrite namespaceImports_run by exact Hn; reflexivity.
  - unfold cat; simpl; rewrite !JsObjFacts.str_length_app; reflexivity.
  - unfold s2; rewrite <- run_cons; apply safe_run; [exact Hs | exact Hplain].
Qed.

(** A top-level statement that is not a [require] to rewrite, and not a
    [use strict] to strip, goes to the ordinary traversal with the state
    unchanged. *)
Theorem non_require_traversed n s :
  target n = None -> strippedStrict s = true \/ isUseStrict n = false ->
  visitTopLevel n s = visit_default n s.
Proof.
  intros Ht Hu.
  assert (Hrr : forall lead x c a, call_target c a = None -> rewriteRequire lead x c a s = (false, s)).
  { intros lead x c a Hc; destruct (rewriteRequire_cases lead x c a s) as [[_ H] | [m [H _]]];
      [exact H | congruence]. }
  destruct n as [lead e | lead ds | lead t]; cbn [visitTopLevel]; [| |reflexivity].
  - replace (negb (strippedStrict s) && isUseStrict (ExpressionStatement lead e)) with false
      by (destruct Hu as [H | H]; rewrite H; [reflexivity | symmetry; apply andb_false_r]).
    destruct e as [i|t|c a|e' nm|t]; try reflexivity.
    simpl in Ht |- *.
    destruct (isExportRequire c a) as [r|]; [destruct (truthy r); [discriminate|]|];
      rewrite Hrr by exact Ht; reflexivity.
  - destruct ds as [|[nm ini] [|d' ds]]; try reflexivity.
    destruct nm as [x|x]; [|reflexivity].
    destruct ini as [[i|t|c a|e' nm|t]|]; try reflexivity.
    simpl in Ht |- *; rewrite Hrr by exact Ht; reflexivity.
Qed.

End PostProcessor.
End PostProcessor.

(** ** A concrete module rewriter

    Paths name the module of the same name, the file is [m], and the
    traversal prints a statement back, turning [x.default] into [x] and
    eight spaces for the names of [namespaceImports]. *)
Module PostConc.
Import PostProcessor.

Definition pathToModuleName (_ path : string) : string := path.

Definition fileName : string := "m".

Fixpoint print (ns : JsObj.t (V:=bool)) (e : expr) : string :=
  match e with
  | Identifier t => t
  | StringLiteral t => cat ["'"; t; "'"]
  | CallExpression c a => cat [print ns c; "("; join ", " (map (print ns) a); ")"]
  | PropertyAccessExpression e' n =>
      match e' with
      | Identifier x =>
          if String.eqb n "default" && JsObj.has ns x then cat [x; "        "] else cat [x; "."; n]
      | _ => cat [print ns e'; "."; n]
      end
  | OtherExpression t => t
  end.

Definition print_decl (ns : JsObj.t (V:=bool)) (d : decl) : string :=
  let name := match d_name d with BIdentifier x | BPattern x => x end in
  match d_init d with
  | Some e => cat [name; " = "; print ns e]
  | None => name
  end.

Definition visit (ns : JsObj.t (V:=bool)) (n : stmt) : string :=
  match n with
  | ExpressionStatement lead e => cat [lead; print ns e; ";"]
  | VariableStatement lead ds => cat [lead; "var "; join ", " (map (print_decl ns) ds); ";"]
  | OtherStatement lead t => cat [lead; t]
  end.

Definition run l := PostProcessor.run pathToModuleName fileName visit l
                      (PostProcessor.init pathToModuleName fileName).

Definition process := PostProcessor.process pathToModuleName fileName visit.

Definition var_x : stmt :=
  VariableStatement EmptyString [mkDecl (BIdentifier "x") (Some (OtherExpression "1"))].

Definition use_strict (lead : string) : stmt := ExpressionStatement lead (StringLiteral "use strict").



(** C5 at [use strict] after [f();], followed by a second one: the first
    is dropped, the second kept. *)
Lemma use_strict_stripped_once_witness :
  let pre := [ExpressionStatement EmptyString (CallExpression (Identifier "f") [])] in
  let u := use_strict nl in
  let s1 := run pre in
  strippedStrict s1 = false /\
  visitTopLevel pathToModuleName fileName visit u s1
  = mkPst (output s1 ++ [stmt_lead u]) (namespaceImports s1) (moduleVariables s1) true (unusedIndex s1) /\
  (forall l, strippedStrict (PostProcessor.run pathToModuleName fileName visit l
                               (visitTopLevel pathToModuleName fileName visit u s1)) = true) /\
  (forall s n, strippedStrict s = true -> isUseStrict n = true ->
     visitTopLevel pathToModuleName fileName visit n s = visit_default visit n s).
Proof.
  apply (PostProcessor.use_strict_stripped_once pathToModuleName fileName visit); reflexivity.
Defined.

(** C5 as stated fails: in [var x = 1; 'use strict'; 'use strict';] the
    [use strict] in second position is stripped (only the line feed before
    it stays) and the one in third position is kept. *)
Lemma use_strict_not_first_stripped :
  fst (process [var_x; use_strict nl; use_strict nl] EmptyString)
  = cat ["goog.module('m');"; "var x = 1;"; nl; nl; "'use strict';"].
Proof. vm_compute; reflexivity. Qed.



End PostConc.

(** ** More of the annotator

    The annotator's functions that the claims leave out, and facts about
    the ones embedded above. *)
Module AnnotatorMore.
Import Annotator JsObjFacts.

(** *** [expandSymbolsFromExportStar] *)






Section AnnotatorMore.

Variable ty : Type.
Variable translate : ty -> bool -> string.
Variable num : Type.
Variable num_zero : num.
Variable num_add1 : num -> num.
Variable num_str : num -> string.
Variable expr : Type.
Variable visit_expr : expr -> M unit.
Variable escapeForComment : string -> string.
Variable untyped : bool.
Variable process_other : node ty num expr -> M bool.

Local Abbreviation hdr := (hdr ty).
Local Abbreviation member := (member ty).
Local Abbreviation node := (node ty num expr).
Local Abbreviation getJSDoc := (getJSDoc ty).
Local Abbreviation visitProperty := (visitProperty ty translate escapeForComment untyped).
Local Abbreviation emitInterface := (emitInterface ty translate escapeForComment untyped).
Local Abbreviation visitExterns := (visitExterns ty translate num expr untyped).
Local Abbreviation writeExternsType := (writeExternsType ty translate untyped).
Local Abbreviation writeExternsVariable := (writeExternsVariable ty translate untyped).
Local Abbreviation maybeProcess :=
  (maybeProcess ty translate num num_zero num_add1 num_str expr visit_expr escapeForComment
     untyped process_other).

(** *** [emitTypeAnnotationsHelper] *)

(** A constructor parameter: whether [p.flags & VISIBILITY_FLAGS] is
    non-zero, its node header and its name. *)
Record ctor_param := mkCtorParam { cp_visibility : bool; cp_hdr : hdr; cp_name : binding }.

(** The members of a class as [emitTypeAnnotationsHelper] sorts them:
    constructors with their parameters, property declarations with their
    [Static] flag, and the rest. *)
Inductive class_member :=
| CConstructor (params : list ctor_param)
| CPropertyDeclaration (static : bool) (h : hdr) (name : mname)
| COtherMember.

(** A parameter as [visitProperty] reads it: [propertyName] gives the
    identifier's text, and [null] for a binding pattern. *)
Definition param_decl (p : ctor_param) : member :=
  MProperty ty (cp_hdr p) false
    (match cp_name p with BIdent x => NIdent x | BArray t => NOther t | BObject t => NOther t end).

(** [emitTypeAnnotationsHelper(classDecl)]; [className] is
    [getIdentifierText(classDecl.name)]. *)
Definition emitTypeAnnotationsHelper (className : string) (members : list class_member) : M unit :=
  let ctors := flat_map (fun m => match m with CConstructor ps => [ps] | _ => [] end) members in
  let nonStaticProps :=
    flat_map (fun m => match m with CPropertyDeclaration false h n => [MProperty ty h true n] | _ => [] end)
      members in
  let staticProps :=
    flat_map (fun m => match m with CPropertyDeclaration true h n => [MProperty ty h true n] | _ => [] end)
      members in
  let paramProps := match ctors with ctor :: _ => filter cp_visibility ctor | [] => [] end in
  if Nat.eqb (List.length nonStaticProps) 0 && Nat.eqb (List.length paramProps) 0
     && Nat.eqb (List.length staticProps) 0
  then ret tt
  else
    emit (cat [nl; nl; "  static _tsickle_typeAnnotationsHelper() {"; nl]) ;;
    iterM (visitProperty [className]) staticProps ;;
    let memberNamespace := [className; "prototype"] in
    iterM (visitProperty memberNamespace) nonStaticProps ;;
    iterM (fun p => visitProperty memberNamespace (param_decl p)) paramProps ;;
    emit (cat ["  }"; nl]).

Definition is_ctor (m : class_member) : bool :=
  match m with CConstructor _ => true | _ => false end.


(** *** Lemmas *)

Lemma bind_snd {A B} (m : M A) (f : A -> M B) s :
  snd (bind m f s) = snd (f (fst (m s)) (snd (m s))).
Proof. unfold bind; destruct (m s); reflexivity. Qed.


Lemma swap_entry (body : M unit) s :
  (o <- get_sink ;; set_sink ExternsBuf ;; body ;; set_sink o) s
  = let (u, s') := (o <- get_sink ;; set_sink ExternsBuf ;; body ;; set_sink o)
                     (mkSt (main s) (externs s) ExternsBuf (emitted s) (diags s)) in
    (u, mkSt (main s') (externs s') (sink s) (emitted s') (diags s')).
Proof. unfold bind, get_sink, set_sink; simpl; destruct (body _); reflexivity. Qed.

(** [visitExterns] does the same whatever the sink it finds, and restores it. *)
Lemma visitExterns_entry n ns s :
  visitExterns n ns s
  = let (u, s') := visitExterns n ns (mkSt (main s) (externs s) ExternsBuf (emitted s) (diags s)) in
    (u, mkSt (main s') (externs s') (sink s) (emitted s') (diags s')).
Proof.
  destruct n; cbn [Annotator.visitExterns]; apply swap_entry.
Qed.

Lemma parse_lines_msg lines : forall acc m,
  JSDoc.parse_lines acc lines = JSDoc.RFault m -> m = JSDoc.msg_type \/ m = JSDoc.msg_braces.
Proof.
  induction lines as [|line rest IH]; intros acc m; simpl; [discriminate|].
  destruct (JSDoc.tag_match line) as [[tn tx]|].
  - destruct (String.eqb (string_of_list_ascii tn) "type").
    { intros H; injection H as <-; auto. }
    destruct ((String.eqb (string_of_list_ascii tn) "param"
               || String.eqb (string_of_list_ascii tn) "return") && JSDoc.first_is 123 tx).
    { intros H; injection H as <-; auto. }
    destruct (if String.eqb (string_of_list_ascii tn) "param" then _ else _) as [pn tx'].
    apply IH.
  - destruct acc; apply IH.
Qed.

(** [writeExternsVariable] of names of [closureExternsBlacklist], at the
    top level, does nothing. *)
Lemma blacklisted_variables ds : forall s,
  Forall (fun d => exists x, v_name ty d = BIdent x /\ str_in x closureExternsBlacklist = true) ds ->
  iterM (writeExternsVariable []) ds s = (tt, s).
Proof.
  induction ds as [|d ds IH]; intros s H; [reflexivity|].
  inversion H as [|d' ds' [x [Hx Hb]] Hds]; subst.
  cbn [iterM]; unfold bind, Annotator.writeExternsVariable; rewrite Hx.
  change (join "." ([] ++ [x])) with x; rewrite Hb; apply IH, Hds.
Qed.

(** [m], run with the main output as sink, only appends to the main
    output. *)
Definition main_only {A} (m : M A) : Prop :=
  forall s, sink s = MainBuf ->
    sink (snd (m s)) = MainBuf /\ externs (snd (m s)) = externs s /\
    emitted (snd (m s)) = emitted s /\ exists out, main (snd (m s)) = main s ++ out.

Lemma main_only_ret {A} (a : A) : main_only (ret a).
Proof. intros s Hs; simpl; repeat split; auto; exists []; now rewrite app_nil_r. Qed.

Lemma main_only_bind {A B} (m : M A) (f : A -> M B) :
  main_only m -> (forall a, main_only (f a)) -> main_only (bind m f).
Proof.
  intros Hm Hf s Hs; unfold bind; destruct (Hm s Hs) as [H1 [H2 [H3 [o1 H4]]]].
  destruct (m s) as [a s1]; simpl in *.
  destruct (Hf a s1 H1) as [H5 [H6 [H7 [o2 H8]]]].
  repeat split; try congruence; exists (o1 ++ o2); rewrite H8, H4, app_assoc; reflexivity.
Qed.

Lemma main_only_emit x : main_only (emit x).
Proof. intros s Hs; unfold emit; rewrite Hs; simpl; repeat split; auto; eauto. Qed.

Lemma main_only_error p x : main_only (error p x).
Proof. intros s Hs; simpl; repeat split; auto; exists []; now rewrite app_nil_r. Qed.

Lemma main_only_when b m : main_only m -> main_only (when b m).
Proof. destruct b; simpl; auto using main_only_ret. Qed.

Lemma main_only_iterM {A} (f : A -> M unit) l :
  (forall x, In x l -> main_only (f x)) -> main_only (iterM f l).
Proof.
  induction l as [|x l IH]; simpl; intros H.
  - apply main_only_ret.
  - apply main_only_bind; [apply H; auto | intros _; apply IH; auto].
Qed.

Create HintDb mainonly.
#[local] Hint Resolve main_only_ret main_only_emit main_only_error : mainonly.

Ltac mainonly :=
  repeat match goal with
  | |- main_only (bind _ _) => apply main_only_bind; [|intro]
  | |- main_only (when _ _) => apply main_only_when
  | |- main_only (iterM _ _) => apply main_only_iterM; intros ? ?
  | |- main_only (match ?x with _ => _ end) => destruct x
  | |- main_only (if ?b then _ else _) => destruct b
  | |- main_only _ => solve [eauto with mainonly]
  end.

Lemma main_only_getJSDoc h : main_only (getJSDoc h).
Proof. unfold Annotator.getJSDoc; mainonly. Qed.
#[local] Hint Resolve main_only_getJSDoc : mainonly.

Lemma main_only_visitProperty u ns p :
  main_only (Annotator.visitProperty ty translate escapeForComment u ns p).
Proof. unfold Annotator.visitProperty; mainonly. Qed.
#[local] Hint Resolve main_only_visitProperty : mainonly.

Lemma main_only_emitInterface name tp her ms : main_only (emitInterface name tp her ms).
Proof. unfold Annotator.emitInterface; mainonly. Qed.

Lemma nth_last {A} (l : list A) (x : A) :
  nth_error (l ++ [x]) (List.length (l ++ [x]) - 1) = Some x.
Proof.
  rewrite length_app, Nat.add_sub, nth_error_app2, Nat.sub_diag by lia; reflexivity.
Qed.




(** A comment [getJSDocAnnotation] throws on: a [/** ... */] comment with
    a forbidden line. *)
Definition faulty_comment (c : string) : bool :=
  match JSDoc.jsdoc_body (list_ascii_of_string c) with
  | Some body => existsb JSDocFacts.forbidden (JSDoc.lines_of body)
  | None => false
  end.

(** *** Properties *)

(** [getJSDoc] never writes output and never touches the emitted
    namespaces; it records a diagnostic exactly when the last leading
    comment is a JSDoc comment with a forbidden line: one diagnostic at
    the comment's position, with the message of the error that
    [getJSDocAnnotation] throws on that comment (one of the two messages),
    and then it returns [null]. *)
Theorem getJSDoc_diagnostic h cs pos c s :
  h_comments ty h = cs ++ [(pos, c)] ->
  let '(r, s') := getJSDoc h s in
  main s' = main s /\ externs s' = externs s /\ sink s' = sink s /\ emitted s' = emitted s /\
  (faulty_comment c = false -> diags s' = diags s) /\
  (faulty_comment c = true ->
     r = None /\
     exists m, JSDoc.getJSDocAnnotation c = JSDoc.RFault m /\
               (m = JSDoc.msg_type \/ m = JSDoc.msg_braces) /\
               diags s' = diags s ++ [mkDiag (h_start ty h + pos) m]).
Proof.
  intros Hc; unfold Annotator.getJSDoc; rewrite Hc.
  destruct (cs ++ [(pos, c)]) as [|x l] eqn:E; [now destruct cs|].
  rewrite <- E, nth_last; unfold faulty_comment, JSDoc.getJSDocAnnotation.
  destruct (JSDoc.jsdoc_body (list_ascii_of_string c)) as [b|].
  - destruct (existsb JSDocFacts.forbidden (JSDoc.lines_of b)) eqn:F.
    + destruct (proj2 (proj1 (JSDocFacts.parse_lines_fault (JSDoc.lines_of b) [])) F) as [m Hm].
      rewrite Hm; simpl.
      do 4 (split; [reflexivity|]); split; [discriminate|].
      intros _; split; [reflexivity|].
      exists m; split; [reflexivity|].
      split; [apply (parse_lines_msg _ _ _ Hm) | reflexivity].
    + destruct (proj2 (JSDocFacts.parse_lines_fault (JSDoc.lines_of b) []) F) as [t Ht].
      rewrite Ht; simpl.
      do 4 (split; [reflexivity|]); split; [reflexivity | discriminate].
  - simpl; do 4 (split; [reflexivity|]); split; [reflexivity | discriminate].
Qed.

(** A namespace whose dotted name has already been emitted contributes no
    second [/** @const */] skeleton: visiting its declaration is visiting
    its body in the extended namespace.  This when [emittedNamespaces]
    has no key [hasOwnProperty], with which the
    [emittedNamespaces.hasOwnProperty(nsName)] call would throw. *)
Theorem namespace_redeclared h x body ns s :
  JsObj.has (emitted s) "hasOwnProperty" = false ->
  JsObj.get (emitted s) (join "." (ns ++ [x])) = Some true ->
  visitExterns (ModuleDeclaration ty num expr h (MIdent x) body) ns s
  = visitExterns body (ns ++ [x]) s.
Proof.
  intros _ He; rewrite (visitExterns_entry body).
  cbn [Annotator.visitExterns]; unfold bind, get_sink, set_sink, get_emitted, mark_emitted; simpl.
  rewrite has_get, He; simpl.
  rewrite set_existing by exact He.
  destruct (visitExterns body (ns ++ [x]) _) as [[] s0]; reflexivity.
Qed.

(** An ambient declaration of a name of [closureExternsBlacklist] writes
    no externs: the variables are skipped, and a class or interface only
    has its name recorded as emitted; the node's text is copied to the
    output. *)
Theorem ambient_blacklisted_no_externs h s :
  h_ambient ty h = true -> sink s = MainBuf ->
  (forall ds,
     Forall (fun d => exists x, v_name ty d = BIdent x /\ str_in x closureExternsBlacklist = true) ds ->
     maybeProcess (VariableStatement ty num expr h ds) s
     = (true, mkSt (main s ++ [h_text ty h]) (externs s) MainBuf (emitted s) (diags s))) /\
  (forall name ms, str_in name closureExternsBlacklist = true ->
     maybeProcess (ClassDeclaration ty num expr h name ms) s
     = (true, mkSt (main s ++ [h_text ty h]) (externs s) MainBuf
                (JsObj.set (emitted s) name true) (diags s))) /\
  (forall name tp her ms, str_in name closureExternsBlacklist = true ->
     maybeProcess (InterfaceDeclaration ty num expr h name tp her ms) s
     = (true, mkSt (main s ++ [h_text ty h]) (externs s) MainBuf
                (JsObj.set (emitted s) name true) (diags s))).
Proof.
  intros Ha Hs; split; [|split].
  - intros ds Hds; unfold Annotator.maybeProcess; cbn [node_hdr]; rewrite Ha.
    cbn [Annotator.visitExterns]; unfold bind, get_sink, set_sink; cbv beta iota.
    rewrite blacklisted_variables by exact Hds.
    unfold emit, ret; simpl; rewrite Hs; reflexivity.
  - intros name ms Hb; unfold Annotator.maybeProcess; cbn [node_hdr]; rewrite Ha.
    cbn [Annotator.visitExterns]; unfold Annotator.writeExternsType.
    change (join "." ([] ++ [name])) with name; rewrite Hb.
    unfold bind, emit, get_sink, set_sink, mark_emitted, ret; simpl; rewrite Hs; reflexivity.
  - intros name tp her ms Hb; unfold Annotator.maybeProcess; cbn [node_hdr]; rewrite Ha.
    cbn [Annotator.visitExterns]; unfold Annotator.writeExternsType.
    change (join "." ([] ++ [name])) with name; rewrite Hb.
    unfold bind, emit, get_sink, set_sink, mark_emitted, ret; simpl; rewrite Hs; reflexivity.
Qed.

(** A non-ambient interface never reaches the externs: it only appends to
    the main output, ending with the interface's own text, and leaves the
    emitted namespaces alone. *)
Theorem interface_not_in_externs h name tp her ms s :
  h_ambient ty h = false -> sink s = MainBuf ->
  let '(b, s') := maybeProcess (InterfaceDeclaration ty num expr h name tp her ms) s in
  b = true /\ sink s' = MainBuf /\ externs s' = externs s /\ emitted s' = emitted s /\
  exists out, main s' = main s ++ out ++ [h_text ty h].
Proof.
  intros Ha Hs; unfold Annotator.maybeProcess; simpl; rewrite Ha; unfold bind.
  destruct (main_only_emitInterface name tp her ms s Hs) as [H1 [H2 [H3 [o H4]]]].
  destruct (emitInterface name tp her ms s) as [u s1]; simpl in *.
  unfold emit; rewrite H1; simpl; repeat split; try congruence.
  exists o; rewrite H4, app_assoc; reflexivity.
Qed.

(** Only the first constructor of a class gives parameter properties:
    constructor declarations after it do not change the helper. *)
Theorem helper_first_constructor_only className ms1 ps ms2 :
  existsb is_ctor ms1 = true ->
  emitTypeAnnotationsHelper className (ms1 ++ CConstructor ps :: ms2)
  = emitTypeAnnotationsHelper className (ms1 ++ ms2).
Proof.
  intros H; unfold emitTypeAnnotationsHelper; rewrite !flat_map_app; cbn [flat_map app].
  assert (Hc : exists c rest,
    flat_map (fun m => match m with CConstructor ps => [ps] | _ => [] end) ms1 = c :: rest).
  { clear - H; induction ms1 as [|m ms1 IH]; simpl in H; [discriminate|].
    destruct m; simpl; eauto. }
  destruct Hc as [c [rest Hc]]; rewrite Hc; reflexivity.
Qed.



End AnnotatorMore.

End AnnotatorMore.

(** ** More of the JSDoc parser *)
Module JSDocMore.
Import JSDoc JsObjFacts.

(** A line that is not a tag line. *)
Definition untagged (line : list ascii) : bool :=
  match tag_match line with None => true | Some _ => false end.

(** The tag name of each tag the loop builds, in order: one per tag line,
    and an untagged one first when the first line is not a tag line. *)
Fixpoint tag_names (first : bool) (lines : list (list ascii)) : list (option string) :=
  match lines with
  | [] => []
  | line :: rest =>
      match tag_match line with
      | Some (tn, _) => Some (string_of_list_ascii tn) :: tag_names false rest
      | None => if first then None :: tag_names false rest else tag_names false rest
      end
  end.

Definition trimmed (line : list ascii) : string := string_of_list_ascii (trim line).

Lemma split_nl_nonempty l : split_nl l <> [].
Proof.
  induction l as [|c l IH]; simpl; [discriminate|].
  destruct (is_char 10 c); [discriminate|].
  destruct (split_nl l); [contradiction | discriminate].
Qed.

Lemma join_cons2 sep x y r :
  join sep ((x ++ (sep ++ y))%string :: r) = join sep (x :: y :: r).
Proof.
  destruct r as [|z r]; simpl; [reflexivity|].
  rewrite !str_app_assoc; reflexivity.
Qed.

Lemma parse_untagged lines : forall t,
  forallb untagged lines = true ->
  parse_lines [plain_tag None None (Some t)] lines
  = RTags [plain_tag None None (Some (join " " (t :: map trimmed lines)))].
Proof.
  induction lines as [|l rest IH]; intros t H; [reflexivity|].
  simpl in H; apply andb_prop in H as [Hl Hr]; unfold untagged in Hl.
  cbn [parse_lines]; destruct (tag_match l); [discriminate|].
  cbn [plain_tag tagName parameterName text js_append].
  rewrite IH by exact Hr; cbn [map]; rewrite join_cons2; reflexivity.
Qed.

Local Ltac use_ih :=
  match goal with
  | IH : forall acc, _ -> exists _, _, Hr : _ = false
    |- exists _, parse_lines ?a _ = _ /\ _ =>
      destruct (IH a Hr) as [tags [Hp Hn]]; exists tags; split; [exact Hp|]
  end.

Lemma parse_names lines : forall acc,
  existsb JSDocFacts.forbidden lines = false ->
  exists tags, parse_lines acc lines = RTags tags /\
    map tagName tags
    = map tagName (rev acc) ++ tag_names (match acc with [] => true | _ => false end) lines.
Proof.
  induction lines as [|l rest IH]; intros acc H.
  - exists (rev acc); simpl; rewrite app_nil_r; split; reflexivity.
  - simpl in H; apply orb_false_iff in H as [Hl Hr].
    unfold JSDocFacts.forbidden in Hl; cbn [parse_lines tag_names].
    destruct (tag_match l) as [[tn tx]|].
    + apply orb_false_iff in Hl as [Ht Hb]; rewrite Ht, Hb.
      destruct (if String.eqb (string_of_list_ascii tn) "param" then _ else _) as [pn tx'].
      use_ih.
      rewrite Hn; simpl; rewrite map_app, <- app_assoc; reflexivity.
    + destruct acc as [|t ts].
      * use_ih.
        rewrite Hn; reflexivity.
      * use_ih.
        rewrite Hn; simpl; rewrite !map_app; reflexivity.
Qed.

(** A JSDoc comment without tag lines gives one tag with no name, whose
    text is its lines, each trimmed, joined by single spaces. *)
Theorem jsdoc_untagged_text comment body :
  jsdoc_body (list_ascii_of_string comment) = Some body ->
  forallb untagged (lines_of body) = true ->
  getJSDocAnnotation comment
  = RTags [plain_tag None None (Some (join " " (map trimmed (lines_of body))))].
Proof.
  intros Hb Hu; unfold getJSDocAnnotation; rewrite Hb.
  destruct (lines_of body) as [|l rest] eqn:E.
  - exfalso; exact (split_nl_nonempty _ E).
  - simpl in Hu; apply andb_prop in Hu as [Hl Hr]; unfold untagged in Hl.
    cbn [parse_lines]; destruct (tag_match l); [discriminate|].
    rewrite parse_untagged by exact Hr; reflexivity.
Qed.

(** When [getJSDocAnnotation] does not throw, its tags follow the tag
    lines: one tag per line starting with [@name], in order, preceded by
    one untagged tag when the first line does not start with a tag. *)
Theorem jsdoc_tag_sequence comment body :
  jsdoc_body (list_ascii_of_string comment) = Some body ->
  existsb JSDocFacts.forbidden (lines_of body) = false ->
  exists tags, getJSDocAnnotation comment = RTags tags /\
               map tagName tags = tag_names true (lines_of body).
Proof.
  intros Hb Hf; unfold getJSDocAnnotation; rewrite Hb.
  exact (parse_names (lines_of body) [] Hf).
Qed.

(** A tag line with no text, other than [@type], followed by a line
    without tag gives a tag whose text starts with [undefined]: the
    continuation is appended to the missing text. *)
Theorem jsdoc_undefined_continuation acc l1 l2 rest tn :
  tag_match l1 = Some (tn, []) -> string_of_list_ascii tn <> "type" -> tag_match l2 = None ->
  parse_lines acc (l1 :: l2 :: rest)
  = parse_lines (plain_tag (Some (string_of_list_ascii tn)) None
                   (Some ("undefined " ++ trimmed l2)%string) :: acc) rest.
Proof.
  intros H1 Ht H2; cbn [parse_lines]; rewrite H1.
  apply String.eqb_neq in Ht; rewrite Ht; cbn [first_is]; rewrite andb_false_r.
  destruct (String.eqb (string_of_list_ascii tn) "param"); cbn; rewrite H2; reflexivity.
Qed.

End JSDocMore.

(** ** Escaped identifiers *)
Module Names.

(** [unescapeName] undoes TypeScript's escaping of identifiers, which
    prefixes names that start with two underscores with a third one, and
    leaves every other name as it is. *)
Theorem unescapeName_inverts_escape :
  (forall n, String.prefix "__" n = true -> unescapeName ("_" ++ n)%string = n) /\
  (forall n, String.prefix "__" n = false -> unescapeName n = n).
Proof.
  split; intros n H; unfold unescapeName.
  - change (String.prefix "___" ("_" ++ n)%string) with (String.prefix "__" n); rewrite H.
    change (String.length ("_" ++ n)%string) with (S (String.length n)).
    rewrite Nat.sub_succ, Nat.sub_0_r; apply JsObjFacts.substring_all.
  - destruct (String.prefix "___" n) eqn:E; [|reflexivity].
    destruct n as [|a [|b r]]; try discriminate; cbn [String.prefix] in E, H;
    destruct (Ascii.ascii_dec "_"%char a); cbn beta iota in E, H; try discriminate;
    destruct (Ascii.ascii_dec "_"%char b); cbn beta iota in E, H; try discriminate;
    destruct r; discriminate.
Qed.

End Names.

(** ** Instances of the properties above *)
Module ExtraConc.
Import Annotator AnnotatorMore JSDoc JSDocMore.

Definition node := Annotator.node string Z string.

Definition maybeProcess := Conc.maybeProcess false.

(** [f();] under the comment [/** @type {number} */] at offset 3. *)
Definition type_comment : string := "/** @type {number} */".

Definition commented_hdr : Annotator.hdr string :=
  Annotator.mkHdr string false false false "f();" 10 10 [(3, type_comment)] "number".

Lemma getJSDoc_diagnostic_witness :
  Annotator.h_comments string commented_hdr = [] ++ [(3, type_comment)] /\
  let '(r, s') := Annotator.getJSDoc string commented_hdr Conc.s0 in
  main s' = main Conc.s0 /\ externs s' = externs Conc.s0 /\ sink s' = sink Conc.s0 /\
  emitted s' = emitted Conc.s0 /\
  (faulty_comment type_comment = false -> diags s' = diags Conc.s0) /\
  (faulty_comment type_comment = true ->
   r = None /\
   (exists m, JSDoc.getJSDocAnnotation type_comment = JSDoc.RFault m /\
      (m = msg_type \/ m = msg_braces) /\
      diags s' = diags Conc.s0 ++ [mkDiag (Annotator.h_start string commented_hdr + 3) m])).
Proof.
  split; [reflexivity|].
  apply (AnnotatorMore.getJSDoc_diagnostic string commented_hdr [] 3 type_comment Conc.s0).
  reflexivity.
Defined.

(** [declare namespace N {}] when [N] was emitted before. *)
Definition ns_body : node := Annotator.ModuleBlock string Z string (Conc.hdr true "{}") [].

Definition s_N : st := mkSt [] [] ExternsBuf [("N", true)] [].

Lemma namespace_redeclared_witness :
  JsObj.has (emitted s_N) "hasOwnProperty" = false /\
  JsObj.get (emitted s_N) (join "." ([] ++ ["N"])) = Some true /\
  Annotator.visitExterns string Conc.translate Z string false
    (Annotator.ModuleDeclaration string Z string (Conc.hdr true "namespace") (Annotator.MIdent "N") ns_body)
    [] s_N
  = Annotator.visitExterns string Conc.translate Z string false ns_body ([] ++ ["N"]) s_N.
Proof.
  split; [reflexivity|]; split; [reflexivity|].
  apply (AnnotatorMore.namespace_redeclared string Conc.translate Z string false
           (Conc.hdr true "namespace") "N" ns_body [] s_N); reflexivity.
Defined.

(** [declare var module: any;] and the like. *)
Definition ambient_hdr : Annotator.hdr string := Conc.hdr true "declare".

Lemma ambient_blacklisted_no_externs_witness :
  Annotator.h_ambient string ambient_hdr = true /\ sink Conc.s0 = MainBuf /\
  (forall ds,
   Forall (fun d => exists x, Annotator.v_name string d = Annotator.BIdent x /\
                              str_in x closureExternsBlacklist = true) ds ->
   maybeProcess (Annotator.VariableStatement string Z string ambient_hdr ds) Conc.s0
   = (true, mkSt (main Conc.s0 ++ [Annotator.h_text string ambient_hdr]) (externs Conc.s0) MainBuf
                 (emitted Conc.s0) (diags Conc.s0))) /\
  (forall name ms,
   str_in name closureExternsBlacklist = true ->
   maybeProcess (Annotator.ClassDeclaration string Z string ambient_hdr name ms) Conc.s0
   = (true, mkSt (main Conc.s0 ++ [Annotator.h_text string ambient_hdr]) (externs Conc.s0) MainBuf
                 (JsObj.set (emitted Conc.s0) name true) (diags Conc.s0))) /\
  (forall name tp her ms,
   str_in name closureExternsBlacklist = true ->
   maybeProcess (Annotator.InterfaceDeclaration string Z string ambient_hdr name tp her ms) Conc.s0
   = (true, mkSt (main Conc.s0 ++ [Annotator.h_text string ambient_hdr]) (externs Conc.s0) MainBuf
                 (JsObj.set (emitted Conc.s0) name true) (diags Conc.s0))).
Proof.
  split; [reflexivity|]; split; [reflexivity|].
  apply (AnnotatorMore.ambient_blacklisted_no_externs string Conc.translate Z 0%Z Z.succ string_of_Z
           string Conc.visit_init (fun x => x) false (fun _ => ret false) ambient_hdr Conc.s0);
    reflexivity.
Defined.

(** [interface I {x: number}], not ambient. *)
Definition iface_members : list (Annotator.member string) :=
  [Annotator.MProperty string (Conc.hdr false "x: number;") false (Annotator.NIdent "x")].

Lemma interface_not_in_externs_witness :
  Annotator.h_ambient string (Conc.hdr false "interface") = false /\ sink Conc.s0 = MainBuf /\
  let '(b, s') := maybeProcess
                    (Annotator.InterfaceDeclaration string Z string (Conc.hdr false "interface")
                       "I" false false iface_members) Conc.s0 in
  b = true /\ sink s' = MainBuf /\ externs s' = externs Conc.s0 /\ emitted s' = emitted Conc.s0 /\
  (exists out, main s' = main Conc.s0 ++ out ++ [Annotator.h_text string (Conc.hdr false "interface")]).
Proof.
  split; [reflexivity|]; split; [reflexivity|].
  apply (AnnotatorMore.interface_not_in_externs string Conc.translate Z 0%Z Z.succ string_of_Z
           string Conc.visit_init (fun x => x) false (fun _ => ret false)
           (Conc.hdr false "interface") "I" false false iface_members Conc.s0);
    reflexivity.
Defined.

(** A class with two constructors, the second one with a parameter
    property [private y]. *)
Definition param_y : ctor_param string :=
  mkCtorParam string true (Conc.hdr false "private y: number") (BIdent "y").

Lemma helper_first_constructor_only_witness :
  existsb (is_ctor string) [CConstructor string []] = true /\
  emitTypeAnnotationsHelper string Conc.translate (fun x => x) false "C"
    ([CConstructor string []] ++ CConstructor string [param_y] :: [])
  = emitTypeAnnotationsHelper string Conc.translate (fun x => x) false "C"
      ([CConstructor string []] ++ []).
Proof.
  split; [reflexivity|].
  apply (AnnotatorMore.helper_first_constructor_only string Conc.translate (fun x => x) false "C"
           [CConstructor string []] [param_y] []).
  reflexivity.
Defined.

(** The body of a JSDoc comment, as [getJSDocAnnotation] cuts it out. *)
Definition body_of (comment : string) : list ascii :=
  match jsdoc_body (list_ascii_of_string comment) with Some b => b | None => [] end.

Definition untagged_comment : string := cat ["/** Hello"; nl; " * world. */"].

Lemma jsdoc_untagged_text_witness :
  jsdoc_body (list_ascii_of_string untagged_comment) = Some (body_of untagged_comment) /\
  forallb untagged (lines_of (body_of untagged_comment)) = true /\
  getJSDocAnnotation untagged_comment
  = RTags [plain_tag None None (Some (join " " (map trimmed (lines_of (body_of untagged_comment)))))].
Proof.
  split; [vm_compute; reflexivity|]; split; [vm_compute; reflexivity|].
  apply jsdoc_untagged_text; vm_compute; reflexivity.
Defined.

Definition tagged_comment : string :=
  cat ["/** Adds."; nl; " * @param x the first"; nl; " * @return the sum */"].

Lemma jsdoc_tag_sequence_witness :
  jsdoc_body (list_ascii_of_string tagged_comment) = Some (body_of tagged_comment) /\
  existsb JSDocFacts.forbidden (lines_of (body_of tagged_comment)) = false /\
  exists tags, getJSDocAnnotation tagged_comment = RTags tags /\
               map tagName tags = tag_names true (lines_of (body_of tagged_comment)).
Proof.
  split; [vm_compute; reflexivity|]; split; [vm_compute; reflexivity|].
  apply jsdoc_tag_sequence; vm_compute; reflexivity.
Defined.

(** [@deprecated] followed by the line [use g]. *)
Lemma jsdoc_undefined_continuation_witness :
  tag_match (list_ascii_of_string "@deprecated") = Some (list_ascii_of_string "deprecated", []) /\
  string_of_list_ascii (list_ascii_of_string "deprecated") <> "type" /\
  tag_match (list_ascii_of_string "use g") = None /\
  parse_lines [] [list_ascii_of_string "@deprecated"; list_ascii_of_string "use g"]
  = parse_lines [plain_tag (Some (string_of_list_ascii (list_ascii_of_string "deprecated"))) None
                   (Some ("undefined " ++ trimmed (list_ascii_of_string "use g"))%string)] [].
Proof.
  split; [vm_compute; reflexivity|]; split; [vm_compute; discriminate|].
  split; [vm_compute; reflexivity|].
  apply jsdoc_undefined_continuation; [vm_compute; reflexivity | vm_compute; discriminate
                                      | vm_compute; reflexivity].
Defined.

End ExtraConc.

(** ** Instances of the properties of the module rewriter *)
Module ExtraPostConc.
Import PostProcessor.

Definition P := PostConc.pathToModuleName.
Definition F := PostConc.fileName.
Definition V := PostConc.visit.


(** [require('a');] then [require('m');], the second one named [unused_1_]. *)
Lemma bare_require_named_witness :
  truthy "m" = true /\ str_in (resolve P F "m") (targets P F [bare_require EmptyString "a"]) = false /\
  String.eqb (resolve P F "m") "__proto__" = false /\
  plain_stmts P F ([bare_require EmptyString "a"] ++ [bare_require nl "m"]) = true /\
  let s1 := PostProcessor.run P F V [bare_require EmptyString "a"] (init P F) in
  let k := List.length (filter (is_bare_require P F) [bare_require EmptyString "a"]) in
  let s2 := visitTopLevel P F V (bare_require nl "m") s1 in
  output s2 = output s1 ++ [nl; cat ["var "; unused_name k; " = goog.require('"; resolve P F "m"; "');"]] /\
  JsObj.get (moduleVariables s2) (resolve P F "m") = Some (unused_name k) /\
  unusedIndex s2 = S k /\
  safe s2 = true.
Proof.
  split; [reflexivity|]; split; [reflexivity|]; split; [reflexivity|]; split; [reflexivity|].
  apply (PostProcessor.bare_require_named P F V [bare_require EmptyString "a"] nl "m"); reflexivity.
Defined.

(** [var a = require('goog:m'); f();] followed by [a.default]. *)
Lemma goog_import_default_witness :
  truthy "a" = true /\ truthy "goog:m" = true /\ is_goog "goog:m" = true /\
  String.eqb "a" "__proto__" = false /\ safe (init P F) = true /\
  plain_stmts P F [var_require EmptyString "a" "goog:m"; ExpressionStatement nl (CallExpression (Identifier "f") [])] = true /\
  let mid := [ExpressionStatement nl (CallExpression (Identifier "f") [])] in
  let s2 := PostProcessor.run P F V mid (visitTopLevel P F V (var_require EmptyString "a" "goog:m") (init P F)) in
  PostProcessor.maybeProcess " " (PropertyAccessExpression (Identifier "a") "default") s2
  = (true, emit (cat ["a"; "        "]) (emit " " s2)) /\
  String.length (cat ["a"; "        "]) = String.length (cat ["a"; ".default"]) /\
  safe s2 = true.
Proof.
  do 6 (split; [reflexivity|]).
  apply (PostProcessor.goog_import_default P F V (init P F) EmptyString "a" "goog:m"); reflexivity.
Defined.

(** [var x = 1;] *)
Lemma non_require_traversed_witness :
  target P F PostConc.var_x = None /\
  (strippedStrict (init P F) = true \/ isUseStrict PostConc.var_x = false) /\
  visitTopLevel P F V PostConc.var_x (init P F) = visit_default V PostConc.var_x (init P F).
Proof.
  split; [reflexivity|]; split; [right; reflexivity|].
  apply PostProcessor.non_require_traversed; [reflexivity | right; reflexivity].
Defined.

End ExtraPostConc.
